(** * genkithandler: the Google AI provider and its retry layer

    A shallow embedding of [internal/providers/googleai.go] (the provider,
    its retry loops, its error classification and its configuration
    parsing) and of the declarations of the providers package, followed by
    the properties of the retry/backoff policy, of the initialisation
    guard and of the availability predicate. The manager's call with
    fallback has no code in the sources (they declare its struct only); it
    is modelled from the specification and marked so.

    Conventions of the embedding:
    - Go's [int] and [time.Duration] are 64-bit signed integers: values are
      [Z], every arithmetic result goes through [wrap64];
    - a Go [error] interface value is [option error], [None] being [nil];
    - a Go [(T, error)] result is a pair;
    - the outside world (the model behind genkit, the context, the clock)
      is an oracle carried by the [World]; every effect of the code is a
      state transformer over the [World] and leaves an [event] in its log. *)

From Stdlib Require Import ZArith Lia Bool List Ascii String DecimalString.
From stdpp Require Import gmap strings.
Import ListNotations.

Local Open Scope Z_scope.

(** ** Machine integers *)

Module Int64.

Definition min_int : Z := - 2 ^ 63.
Definition max_int : Z := 2 ^ 63 - 1.

Definition in_range (z : Z) : Prop := min_int <= z <= max_int.

(** Two's complement wrap-around of a 64-bit signed result. *)
Definition wrap64 (z : Z) : Z := (z + 2 ^ 63) mod 2 ^ 64 - 2 ^ 63.

Definition add (x y : Z) : Z := wrap64 (x + y).
Definition sub (x y : Z) : Z := wrap64 (x - y).
Definition mul (x y : Z) : Z := wrap64 (x * y).

(** [x << s] for a non-negative count [s]: the bits shifted past bit 63
    are lost, and a count of 64 or more leaves 0. (Go panics on a
    negative count; the code never shifts by one.) *)
Definition shl (x s : Z) : Z := wrap64 (Z.shiftl x s).

End Int64.

(** ** Strings *)

(** [strings.HasPrefix]. *)
Fixpoint HasPrefix (s prefix : string) : bool :=
  match prefix, s with
  | EmptyString, _ => true
  | String _ _, EmptyString => false
  | String c prefix', String d s' =>
      if Ascii.eqb c d then HasPrefix s' prefix' else false
  end.

(** [strings.Contains]: [substr] occurs somewhere in [s]. *)
Fixpoint Contains (s substr : string) : bool :=
  HasPrefix s substr ||
  match s with
  | EmptyString => false
  | String _ s' => Contains s' substr
  end.

Definition lowerAscii (c : ascii) : ascii :=
  let n := N_of_ascii c in
  if ((65 <=? n) && (n <=? 90))%N then ascii_of_N (n + 32) else c.

(** [strings.ToLower] on the bytes of an ASCII text, where it maps 'A'..'Z'
    to 'a'..'z' and keeps every other byte. (On text with bytes above 127
    Go decodes UTF-8 and folds by the Unicode tables; error texts are taken
    to be ASCII here.) *)
Fixpoint ToLower (s : string) : string :=
  match s with
  | EmptyString => EmptyString
  | String c s' => String (lowerAscii c) (ToLower s')
  end.

(** [strconv.Itoa] / the [%d] verb. *)
Definition Itoa (n : Z) : string := NilZero.string_of_int (Z.to_int n).

(** ** Errors *)

(** The error values the code builds and meets: [errors.New] (and any
    error known only by its text), and [fmt.Errorf] with one [%w]
    operand, which keeps the wrapped error for [errors.Unwrap]. *)
Inductive error : Type :=
  | errorString (s : string)
  | wrapError (msg : string) (err : error).

(** The [Error()] method. *)
Definition Error (e : error) : string :=
  match e with
  | errorString s => s
  | wrapError msg _ => msg
  end.

(** [errors.Unwrap]. *)
Definition Unwrap (e : error) : option error :=
  match e with
  | errorString _ => None
  | wrapError _ err => Some err
  end.

(** [context.Canceled] and [context.DeadlineExceeded], by their texts. *)
Definition Canceled : error := errorString "context canceled".
Definition DeadlineExceeded : error := errorString "context deadline exceeded".

(** [fmt.Errorf(what + " failed after %d attempts: %w", n, lastErr)], the
    one format the retry loops use. With a nil operand [%w] prints as a
    bad verb and nothing is wrapped. *)
Definition Errorf_failed_after (what : string) (n : Z) (lastErr : option error) : error :=
  let head := what +:+ " failed after " +:+ Itoa n +:+ " attempts: " in
  match lastErr with
  | Some e => wrapError (head +:+ Error e) e
  | None => errorString (head +:+ "%!w(<nil>)")
  end.

(** ** Error classification *)

Definition retryablePatterns : list string :=
  [ "rate limit"; "too many requests"; "quota exceeded";
    "service unavailable"; "internal error"; "timeout";
    "connection reset"; "temporary failure"; "server error";
    "resource exhausted" ]%string.

(** [isRetryable]: the error text, lower-cased, contains one of the
    patterns. The receiver is not read. *)
Definition isRetryable (err : option error) : bool :=
  match err with
  | None => false
  | Some e =>
      let errStr := ToLower (Error e) in
      existsb (fun pattern => Contains errStr pattern) retryablePatterns
  end.

(** ** Dynamic values *)

(** Go's [interface{}] as the values configuration and metadata maps hold. *)
#[warnings="-register-all"]
Inductive any : Type :=
  | AnyNil
  | AnyBool (b : bool)
  | AnyInt (n : Z)
  | AnyString (s : string)
  | AnyMap (m : gmap string any).

(** ** The outside world *)

(** What one model invocation is asked: the options handed to genkit. *)
Record Request : Type := mkRequest {
  req_model : string;            (* ai.WithModel *)
  req_prompt : string;           (* ai.WithPrompt *)
  req_outputType : option any    (* ai.WithOutputType, when given *)
}.

(** [ai.ModelResponse], as far as the code reads it: its text. *)
Record ModelResponse : Type := mkModelResponse { resp_text : string }.

(** The [Text()] method of a response pointer, which may be nil. *)
Definition Text (r : option ModelResponse) : string :=
  match r with
  | Some r => resp_text r
  | None => ""%string
  end.

(** A [*genkit.Genkit] instance is an opaque handle. *)
Definition Genkit : Type := nat.

Inductive event : Type :=
  | EvGenerate (req : Request)          (* one invocation of the model *)
  | EvTimerFired (attempt delay : Z)    (* select: [<-time.After(delay)] *)
  | EvCtxDone (attempt delay : Z) (err : error)   (* select: [<-ctx.Done()], with [ctx.Err()] *)
  | EvLogInfo (msg : string)            (* logger.Info *)
  | EvPrimary (name : string)           (* a manager calls its primary provider *)
  | EvFallback (name : string).         (* a manager calls its fallback provider *)

(** The answers of the collaborators, each indexed by how many times it
    has been asked before. [ctx_Done k = Some e] says that in the k-th
    [select] the context's [Done] channel is the case taken, [e] being
    [ctx.Err()]; [None] says the timer fires first. *)
Record Oracle : Type := mkOracle {
  genkit_GenerateText : nat -> Request -> string * option error;
  genkit_Generate : nat -> Request -> option ModelResponse * option error;
  ctx_Done : nat -> option error;
  genkit_Init : nat -> option Genkit * option error;
  googleAI_Init : nat -> string -> option error;
  time_Since : nat -> Z;
  fmt_params : gmap string any -> string   (* the [%v] rendering of a map *)
}.

Record World : Type := mkWorld {
  oracle : Oracle;
  calls : nat;          (* model invocations so far *)
  selects : nat;        (* backoff selects so far *)
  inits : nat;          (* genkit.Init calls so far *)
  log : list event      (* what happened, oldest first *)
}.

Definition newWorld (o : Oracle) : World := mkWorld o 0 0 0 [].

(** Effectful code: a state transformer over the world. *)
Definition M (A : Type) : Type := World -> A * World.

Definition ret {A : Type} (a : A) : M A := fun w => (a, w).

Definition bind {A B : Type} (m : M A) (k : A -> M B) : M B :=
  fun w => let (a, w') := m w in k a w'.

Notation "x <~ m ;; k" := (bind m (fun x => k))
  (at level 100, m at next level, right associativity).

Definition emit (ev : event) (w : World) : World :=
  mkWorld (oracle w) (calls w) (selects w) (inits w) (log w ++ [ev]).

(** [select { case <-ctx.Done(): ...; case <-time.After(delay): ... }]:
    answers [Some (ctx.Err())] when the context wins, [None] when the
    timer does. *)
Definition selectDoneOrAfter (attempt delay : Z) : M (option error) :=
  fun w =>
    let w' := mkWorld (oracle w) (calls w) (S (selects w)) (inits w) (log w) in
    match ctx_Done (oracle w) (selects w) with
    | Some e => (Some e, emit (EvCtxDone attempt delay e) w')
    | None => (None, emit (EvTimerFired attempt delay) w')
    end.

(** [genkit.GenerateText(ctx, g, opts...)]. *)
Definition genkitGenerateText (req : Request) : M (string * option error) :=
  fun w =>
    (genkit_GenerateText (oracle w) (calls w) req,
     emit (EvGenerate req) (mkWorld (oracle w) (S (calls w)) (selects w) (inits w) (log w))).

(** [genkit.Generate(ctx, g, opts...)]. *)
Definition genkitGenerate (req : Request) : M (option ModelResponse * option error) :=
  fun w =>
    (genkit_Generate (oracle w) (calls w) req,
     emit (EvGenerate req) (mkWorld (oracle w) (S (calls w)) (selects w) (inits w) (log w))).

(** [genkit.Init(ctx)] followed, when it succeeds, by the plugin's
    [Init(ctx, instance)]; both answers come from the same round. *)
Definition genkitInit : M (nat * (option Genkit * option error)) :=
  fun w =>
    ((inits w, genkit_Init (oracle w) (inits w)),
     mkWorld (oracle w) (calls w) (selects w) (S (inits w)) (log w)).

Definition googleAIPluginInit (round : nat) (apiKey : string) : M (option error) :=
  fun w => (googleAI_Init (oracle w) round apiKey, w).

Definition loggerInfo (msg : string) : M unit :=
  fun w => (tt, emit (EvLogInfo msg) w).

(** How many model invocations a log holds. *)
Definition isGenerate (ev : event) : bool :=
  match ev with EvGenerate _ => true | _ => false end.

Definition attempts (l : list event) : nat := length (List.filter isGenerate l).

(** The outcome of a call of the embedding: the Go function returned, or
    it panicked, or the fuel given to a loop ran out before it returned. *)
Inductive outcome (A : Type) : Type :=
  | Return (v : A) (err : option error)
  | Panic (msg : string)
  | OutOfFuel.
Arguments Return {A} v err.
Arguments Panic {A} msg.
Arguments OutOfFuel {A}.

(** ** The provider *)

(** [RetryConfig]: how many retries, and the bounds of the backoff, in
    nanoseconds. *)
Record RetryConfig : Type := mkRetryConfig {
  MaxRetries : Z;
  BaseDelay : Z;
  MaxDelay : Z
}.

Record GoogleAIProviderConfig : Type := mkConfig {
  APIKey : string;
  DefaultModel : string
}.

(** [domain.ErrorHandler] is declared outside the files at hand. Its two
    constructors are taken as given; each builds an error (never nil). *)
Record ErrorHandler : Type := mkErrorHandler {
  eh_New : string -> gmap string any -> error;
  eh_Wrap : error -> string -> gmap string any -> error
}.

(** [GoogleAIProvider]. The logger collaborator is the world's log. *)
Record GoogleAIProvider : Type := mkProvider {
  initialized : bool;
  retryConfig : RetryConfig;
  config : GoogleAIProviderConfig;
  errorHandler : ErrorHandler;
  genkit : option Genkit
}.

Definition second : Z := 1000000000.

Definition defaultRetryConfig : RetryConfig :=
  {| MaxRetries := 3; BaseDelay := 1 * second; MaxDelay := 30 * second |}.

Definition NewGoogleAIProvider (errorHandler : ErrorHandler) : GoogleAIProvider :=
  {| initialized := false;
     retryConfig := defaultRetryConfig;
     config := {| APIKey := ""; DefaultModel := "" |};
     errorHandler := errorHandler;
     genkit := None |}.

(** [parseConfig]: a key is taken only when present and a string. *)
Definition parseConfig (config : gmap string any) (googleConfig : GoogleAIProviderConfig)
  : GoogleAIProviderConfig * option error :=
  let googleConfig :=
    match config !! "api_key"%string with
    | Some (AnyString apiKey) => mkConfig apiKey (DefaultModel googleConfig)
    | _ => googleConfig
    end in
  let googleConfig :=
    match config !! "default_model"%string with
    | Some (AnyString defaultModel) => mkConfig (APIKey googleConfig) defaultModel
    | _ => googleConfig
    end in
  (googleConfig, None).

Definition strlen (s : string) : Z := Z.of_nat (String.length s).

(** [Initialize]: the provider after the call, and the error returned. *)
Definition Initialize (config : gmap string any) (p : GoogleAIProvider)
  : M (GoogleAIProvider * option error) :=
  let (googleConfig, err) := parseConfig config (mkConfig "" "") in
  match err with
  | Some err =>
      ret (p, Some (eh_Wrap (errorHandler p) err "failed to parse configuration"
                      {[ "config"%string := AnyMap config ]}))
  | None =>
      if String.eqb (APIKey googleConfig) "" then
        ret (p, Some (eh_New (errorHandler p) "Google AI API key is required"
                        {[ "config"%string := AnyMap config ]}))
      else
        let googleConfig :=
          if String.eqb (DefaultModel googleConfig) ""
          then mkConfig (APIKey googleConfig) "gemini-1.5-flash"
          else googleConfig in
        let p := mkProvider (initialized p) (retryConfig p) googleConfig
                            (errorHandler p) (genkit p) in
        r <~ genkitInit ;;
        let '(round, (genkitInstance, err)) := r in
        match err with
        | Some err =>
            ret (p, Some (eh_Wrap (errorHandler p) err "failed to initialize Genkit"
                            {[ "api_key_length"%string := AnyInt (strlen (APIKey googleConfig)) ]}))
        | None =>
            err <~ googleAIPluginInit round (APIKey googleConfig) ;;
            match err with
            | Some err =>
                ret (p, Some (eh_Wrap (errorHandler p) err "failed to initialize Google AI plugin"
                                {[ "api_key_length"%string := AnyInt (strlen (APIKey googleConfig)) ]}))
            | None =>
                let p := mkProvider true (retryConfig p) googleConfig
                                    (errorHandler p) genkitInstance in
                _ <~ loggerInfo "Google AI provider initialized successfully" ;;
                ret (p, None)
            end
        end
  end.

Definition GetModel (p : GoogleAIProvider) : string :=
  if String.eqb (DefaultModel (config p)) "" then "gemini-1.5-flash"
  else DefaultModel (config p).

Definition IsAvailable (p : GoogleAIProvider) : bool :=
  negb (String.eqb (APIKey (config p)) "") && initialized p.

Definition SupportsStructuredOutput (p : GoogleAIProvider) : bool := true.

Definition GetMaxTokens (p : GoogleAIProvider) : Z :=
  let model := GetModel p in
  if String.eqb model "gemini-1.5-pro" || String.eqb model "gemini-1.5-pro-latest" then 2097152
  else if String.eqb model "gemini-1.5-flash" || String.eqb model "gemini-1.5-flash-latest" then 1048576
  else if String.eqb model "gemini-2.0-flash" then 1048576
  else 32768.

(** ** The retry loops *)

(** The backoff before retry [attempt] (>= 1):
    [min(BaseDelay * time.Duration(1 << (attempt-1)), MaxDelay)], in
    64-bit arithmetic. *)
Definition backoffDelay (rc : RetryConfig) (attempt : Z) : Z :=
  Z.min (Int64.mul (BaseDelay rc) (Int64.shl 1 (Int64.sub attempt 1))) (MaxDelay rc).

Section RetryLoop.

(** [withRetry] and [withRetryStructured] are the same loop, up to the
    result type [A], its zero value, and the words of the final error. *)
Context {A : Type} (zero : A) (what : string).
Variable rc : RetryConfig.
Variable fn : M (A * option error).

(** The [return] after the loop: the failure that wraps [lastErr]. *)
Definition exhausted (lastErr : option error) : outcome A :=
  Return zero (Some (Errorf_failed_after what (Int64.add (MaxRetries rc) 1) lastErr)).

(** The [for] loop from the test of its condition on, [attempt] and
    [lastErr] being the loop's variables. One unit of fuel is one test
    of the condition. *)
Fixpoint retryFrom (fuel : nat) (attempt : Z) (lastErr : option error) : M (outcome A) :=
  match fuel with
  | O => ret OutOfFuel
  | S fuel =>
      if attempt <=? MaxRetries rc then
        let body : M (outcome A) :=
          r <~ fn ;;
          let (result, err) := r in
          match err with
          | None => ret (Return result None)
          | Some _ =>
              let lastErr := err in
              if negb (isRetryable err)
              then (* break *) ret (exhausted lastErr)
              else retryFrom fuel (Int64.add attempt 1) lastErr
          end in
        if 0 <? attempt then
          let delay := backoffDelay rc attempt in
          match lastErr with
          | None => ret (Panic "nil pointer dereference")   (* lastErr.Error() *)
          | Some _ =>
              done <~ selectDoneOrAfter attempt delay ;;
              match done with
              | Some ctxErr => ret (Return zero (Some ctxErr))
              | None => body
              end
          end
        else body
      else ret (exhausted lastErr)
  end.

(** The whole function: the loop entered with [attempt = 0] and a nil
    [lastErr], with fuel for [MaxRetries + 1] rounds and the last test. *)
Definition retryLoop : M (outcome A) :=
  retryFrom (S (Z.to_nat (MaxRetries rc + 1))) 0 None.

End RetryLoop.

Definition withRetry (p : GoogleAIProvider) (fn : M (string * option error))
  : M (outcome string) :=
  retryLoop ""%string "google AI request" (retryConfig p) fn.

Definition withRetryStructured (p : GoogleAIProvider)
    (fn : M (option ModelResponse * option error))
  : M (outcome (option ModelResponse)) :=
  retryLoop None "google AI structured request" (retryConfig p) fn.

(** ** Generation *)

Definition errNotInitialized : error := errorString "provider not initialized".

(** [GenerateText]. Like every method below it hands back the provider it
    was called on, so that what it does to the provider can be stated. *)
Definition GenerateText (prompt : string) (p : GoogleAIProvider)
  : M (GoogleAIProvider * outcome string) :=
  if negb (initialized p) then ret (p, Return ""%string (Some errNotInitialized))
  else
    r <~ withRetry p (genkitGenerateText (mkRequest (GetModel p) prompt None)) ;;
    ret (p, r).

(** A nil interface value. *)
Definition isNil (v : any) : bool :=
  match v with AnyNil => true | _ => false end.

(** [GenerateWithStructuredOutput]. Its closure builds the options of
    [genkit.Generate] before it calls it, and [ai.WithOutputType] infers a
    schema from its argument by reflection: on a nil [outputType] that
    panics (the reflected type is nil), so the closure panics before any
    invocation. The loop runs the closure first in round 0, which it
    enters when [0 <= MaxRetries]; the panic unwinds the loop and the
    method. With a negative [MaxRetries] the closure is never run. *)
Definition GenerateWithStructuredOutput (prompt : string) (outputType : any)
    (p : GoogleAIProvider)
  : M (GoogleAIProvider * outcome (option ModelResponse)) :=
  if negb (initialized p) then ret (p, Return None (Some errNotInitialized))
  else if isNil outputType && (0 <=? MaxRetries (retryConfig p)) then
    ret (p, Panic "invalid memory address or nil pointer dereference")
  else
    r <~ withRetryStructured p
           (genkitGenerate (mkRequest (GetModel p) prompt (Some outputType))) ;;
    ret (p, r).

(** [StreamChunk] channels, as far as [GenerateStream] goes: a buffer
    size and whether the channel is closed. *)
Record Chan : Type := mkChan { chan_cap : Z; chan_closed : bool }.

Definition GenerateStream (prompt : string) (p : GoogleAIProvider)
  : M (GoogleAIProvider * (Chan * option error)) :=
  if negb (initialized p) then ret (p, (mkChan 1 true, Some errNotInitialized))
  else ret (p, (mkChan 10 false, None)).

Record ToolCallResult : Type := mkToolCallResult {
  tcr_Result : any;
  tcr_Success : bool;
  tcr_Error : option error;
  tcr_Duration : Z;
  tcr_Metadata : gmap string any
}.

Definition timeSince : M Z := fun w => (time_Since (oracle w) (calls w), w).

Definition fmtParams (params : gmap string any) : M string :=
  fun w => (fmt_params (oracle w) params, w).

(** The closure [CallTool] hands to [withRetry]: one generation, of which
    the text is kept. *)
Definition toolCall (req : Request) : M (string * option error) :=
  g <~ genkitGenerate req ;;
  let (result, err) := g in
  match err with
  | Some _ => ret (""%string, err)
  | None => ret (Text result, None)
  end.

(** [CallTool]. *)
Definition CallTool (toolName : string) (params : gmap string any) (p : GoogleAIProvider)
  : M (GoogleAIProvider * outcome (option ToolCallResult)) :=
  if negb (initialized p) then ret (p, Return None (Some errNotInitialized))
  else if String.eqb toolName "" then
    d <~ timeSince ;;
    ret (p, Return (Some (mkToolCallResult AnyNil false
                            (Some (errorString "tool name cannot be empty")) d ∅))
                   (Some (errorString "tool name cannot be empty")))
  else
    shown <~ fmtParams params ;;
    let toolPrompt :=
      ("Execute tool '" +:+ toolName +:+ "' with parameters: " +:+ shown
       +:+ ". Return the result in a structured format.")%string in
    r <~ withRetry p (toolCall (mkRequest (GetModel p) toolPrompt None)) ;;
    duration <~ timeSince ;;
    match r with
    | Return response (Some err) =>
        ret (p, Return (Some (mkToolCallResult AnyNil false (Some err) duration
                   (<[ "provider"%string := AnyString "googleai" ]>
                    (<[ "model"%string := AnyString (GetModel p) ]>
                    (<[ "tool_name"%string := AnyString toolName ]>
                    (<[ "error_type"%string := AnyString "generation_failed" ]> ∅))))))
                 (Some err))
    | Return response None =>
        ret (p, Return (Some (mkToolCallResult (AnyString response) true None duration
                   (<[ "provider"%string := AnyString "googleai" ]>
                    (<[ "model"%string := AnyString (GetModel p) ]>
                    (<[ "tool_name"%string := AnyString toolName ]>
                    (<[ "prompt_used"%string := AnyString toolPrompt ]>
                    (<[ "response_len"%string := AnyInt (strlen response) ]> ∅)))))))
                 None)
    | Panic msg => ret (p, Panic msg)
    | OutOfFuel => ret (p, OutOfFuel)
    end.

(** ** The provider interface and the manager *)

(** [AIProvider]: what the package asks of a provider. *)
Class AIProvider (P : Type) : Type := {
  provider_Initialize : gmap string any -> P -> M (P * option error);
  provider_GenerateText : string -> P -> M (P * outcome string);
  provider_GenerateWithStructuredOutput :
    string -> any -> P -> M (P * outcome (option ModelResponse));
  provider_GetModel : P -> string;
  provider_IsAvailable : P -> bool
}.

#[export] Instance GoogleAIProvider_is_AIProvider : AIProvider GoogleAIProvider := {
  provider_Initialize := Initialize;
  provider_GenerateText := GenerateText;
  provider_GenerateWithStructuredOutput := GenerateWithStructuredOutput;
  provider_GetModel := GetModel;
  provider_IsAvailable := IsAvailable
}.

(** [LegacyProviderManager]: the providers by name, and the names of the
    primary and of the fallback (empty when there is none). *)
Record LegacyProviderManager (P : Type) : Type := mkManager {
  providers : gmap string P;
  primary : string;
  fallback : string
}.
Arguments mkManager {P} _ _ _.
Arguments providers {P} _.
Arguments primary {P} _.
Arguments fallback {P} _.

Definition errProviderUnavailable : error := errorString "provider unavailable".

(** Modelled from the spec: how the manager, of which the sources hold no
    code, tells that a provider has exhausted its retries. The error the
    provider returns wraps one that was still retryable (the retry loops
    stop at the first error that is not). *)
Definition retriesSpent (err : error) : bool := isRetryable (Unwrap err).

Section Manager.

Context {P : Type} `{AIProvider P}.

(** Modelled from the spec: the manager's hand-over of a call, absent
    from the sources. One call goes to the provider [q] registered under
    [name], noted in the log as [ev]. *)
Definition callProvider (ev : event) (name : string) (prompt : string) (q : P)
    (m : LegacyProviderManager P)
  : M (LegacyProviderManager P * outcome string) :=
  fun w =>
    let (r, w') := provider_GenerateText prompt q (emit ev w) in
    let (q', out) := r in
    ((mkManager (<[ name := q' ]> (providers m)) (primary m) (fallback m), out), w').

(** Modelled from the spec: the manager's fallback step, absent from the
    sources. With a fallback configured and registered, it is called,
    once, and its answer is the call's answer; with none the primary's
    failure [failure] is the answer. *)
Definition tryFallback (prompt : string) (failure : outcome string)
    (m : LegacyProviderManager P)
  : M (LegacyProviderManager P * outcome string) :=
  if String.eqb (fallback m) "" then ret (m, failure)
  else
    match providers m !! fallback m with
    | Some q => callProvider (EvFallback (fallback m)) (fallback m) prompt q m
    | None => ret (m, failure)
    end.

(** Modelled from the spec: the Gateway call of the manager, of which the
    sources declare the struct only. The primary is called when it is
    registered and available. When it is not, or when its call gives up
    with its retries spent, the fallback step follows; a success of the
    primary, and a failure that is not a spent retry budget, are the
    call's answer. *)
Definition managerGenerateText (prompt : string) (m : LegacyProviderManager P)
  : M (LegacyProviderManager P * outcome string) :=
  match providers m !! primary m with
  | Some q =>
      if provider_IsAvailable q then
        r <~ callProvider (EvPrimary (primary m)) (primary m) prompt q m ;;
        let (m', out) := r in
        match out with
        | Return _ (Some err) =>
            if retriesSpent err then tryFallback prompt out m' else ret (m', out)
        | _ => ret (m', out)
        end
      else tryFallback prompt (Return ""%string (Some errProviderUnavailable)) m
  | None => tryFallback prompt (Return ""%string (Some errProviderUnavailable)) m
  end.

End Manager.

Definition isFallback (ev : event) : bool :=
  match ev with EvFallback _ => true | _ => false end.

(** How many calls a log shows handed to a fallback provider. *)
Definition fallbackCalls (l : list event) : nat := length (List.filter isFallback l).

(** ** A provider's life *)

(** The calls a client can make on a provider. *)
Inductive call : Type :=
  | DoInitialize (config : gmap string any)
  | DoGenerateText (prompt : string)
  | DoGenerateWithStructuredOutput (prompt : string) (outputType : any)
  | DoGenerateStream (prompt : string)
  | DoCallTool (toolName : string) (params : gmap string any).

(** One call: the provider after it, and whether it was an [Initialize]
    that returned nil. *)
Definition perform (c : call) (p : GoogleAIProvider) : M (GoogleAIProvider * bool) :=
  match c with
  | DoInitialize config =>
      r <~ Initialize config p ;;
      let (p', err) := r in
      ret (p', match err with None => true | Some _ => false end)
  | DoGenerateText prompt =>
      r <~ GenerateText prompt p ;; ret (fst r, false)
  | DoGenerateWithStructuredOutput prompt outputType =>
      r <~ GenerateWithStructuredOutput prompt outputType p ;; ret (fst r, false)
  | DoGenerateStream prompt =>
      r <~ GenerateStream prompt p ;; ret (fst r, false)
  | DoCallTool toolName params =>
      r <~ CallTool toolName params p ;; ret (fst r, false)
  end.

(** A history of calls, oldest first: the provider after it, and whether
    some [Initialize] of the history, or of what came before it
    ([succeeded]), returned nil. *)
Fixpoint performAll (cs : list call) (p : GoogleAIProvider) (succeeded : bool)
  : M (GoogleAIProvider * bool) :=
  match cs with
  | [] => ret (p, succeeded)
  | c :: cs =>
      r <~ perform c p ;;
      let (p', ok) := r in
      performAll cs p' (succeeded || ok)
  end.

(** ** Reading a run *)

Definition bumpCalls (w : World) : World :=
  mkWorld (oracle w) (S (calls w)) (selects w) (inits w) (log w).

(** [fn] is one invocation of the model: it asks [req], counts one call,
    and hands back what [answer] makes of the model's reply. *)
Definition invokes {A : Type} (fn : M (A * option error))
    (answer : Oracle -> nat -> A * option error) (req : Request) : Prop :=
  forall w, fn w = (answer (oracle w) (calls w), emit (EvGenerate req) (bumpCalls w)).

(** The calls [from], ..., [from + n - 1] all fail with a retryable error. *)
Definition failsTransiently {A : Type} (answer : nat -> A * option error)
    (from n : nat) : Prop :=
  forall i, (i < n)%nat ->
    exists r e, answer (from + i)%nat = (r, Some e) /\ isRetryable (Some e) = true.

(** The context is never the case a select takes: no cancellation, no
    deadline. *)
Definition neverDone (o : Oracle) : Prop := forall k, ctx_Done o k = None.

(** Every backoff the configuration can ask for fits a 64-bit duration. *)
Definition backoffFits (rc : RetryConfig) : Prop :=
  forall k, 1 <= k <= MaxRetries rc -> Int64.in_range (BaseDelay rc * 2 ^ (k - 1)).

(** What the spec asks of the delay before retry [k]. *)
Definition specDelay (rc : RetryConfig) (k : Z) : Z :=
  Z.min (BaseDelay rc * 2 ^ (k - 1)) (MaxDelay rc).

(** The context is not the case taken by any of the [n] selects that
    follow the [from] selects made so far. *)
Definition waitsThrough (o : Oracle) (from n : nat) : Prop :=
  forall i, (i < n)%nat -> ctx_Done o (from + i)%nat = None.

(** The events of the retries [first], [first + 1], ... ([n] of them) as
    the code computes them: each retry is one wait of its backoff, run to
    its end, and then the invocation. *)
Fixpoint retryRounds (rc : RetryConfig) (req : Request) (first : Z) (n : nat)
  : list event :=
  match n with
  | O => []
  | S n =>
      EvTimerFired first (backoffDelay rc first)
      :: EvGenerate req :: retryRounds rc req (first + 1) n
  end.

(** The same events as the spec asks for them: before retry [k] one wait
    of [min(BaseDelay * 2^(k-1), MaxDelay)], then the invocation. *)
Fixpoint backoffRounds (rc : RetryConfig) (req : Request) (first : Z) (n : nat)
  : list event :=
  match n with
  | O => []
  | S n =>
      EvTimerFired first (Z.min (BaseDelay rc * 2 ^ (first - 1)) (MaxDelay rc))
      :: EvGenerate req :: backoffRounds rc req (first + 1) n
  end.

(** One round of a loop whose [fn] invokes the model, from the call of
    [fn] on: how the round reads once [fn] is known to be an invocation. *)
Definition attemptOnce {A : Type} (zero : A) (what : string) (rc : RetryConfig)
    (fn : M (A * option error)) (answer : Oracle -> nat -> A * option error)
    (req : Request) (fuel : nat) (attempt : Z) (w : World) : outcome A * World :=
  let w1 := emit (EvGenerate req) (bumpCalls w) in
  match answer (oracle w) (calls w) with
  | (result, None) => (Return result None, w1)
  | (_, Some e) =>
      if isRetryable (Some e)
      then retryFrom zero what rc fn fuel (Int64.add attempt 1) (Some e) w1
      else (exhausted zero what rc (Some e), w1)
  end.

(** The events of a round: an invocation asks [req]; a select belongs to
    a retry [k] that the configuration allows and waits its backoff. *)
Definition roundEvent (rc : RetryConfig) (req : Request) (ev : event) : Prop :=
  match ev with
  | EvGenerate r => r = req
  | EvTimerFired k d | EvCtxDone k d _ =>
      0 < k <= MaxRetries rc /\ d = backoffDelay rc k
  | _ => False
  end.

(** A select won by the context is the last event, and its error is
    what the call returns. *)
Fixpoint wellEnded {A : Type} (zero : A) (evs : list event) (out : outcome A) : Prop :=
  match evs with
  | [] => True
  | EvCtxDone _ _ ce :: rest => rest = [] /\ out = Return zero (Some ce)
  | _ :: rest => wellEnded zero rest out
  end.

(** What is known of a provider along its life: initialised providers
    hold an API key. *)
Definition keyed (p : GoogleAIProvider) : Prop :=
  initialized p = true -> APIKey (config p) <> ""%string.

(** The primary is unavailable or exhausts its retries, read off the
    world the call starts in: it is not registered, or it is not
    available, or every invocation its call can make, [MaxRetries + 1] of
    them, fails transiently while the context stays open. *)
Definition primaryGivesUp (prompt : string)
    (m : LegacyProviderManager GoogleAIProvider) (w : World) : Prop :=
  match providers m !! primary m with
  | None => True
  | Some q =>
      IsAvailable q = false
      \/ (IsAvailable q = true
          /\ 0 <= MaxRetries (retryConfig q) < Int64.max_int
          /\ neverDone (oracle w)
          /\ failsTransiently
               (fun n => genkit_GenerateText (oracle w) n
                           (mkRequest (GetModel q) prompt None))
               (calls w) (Z.to_nat (MaxRetries (retryConfig q) + 1)))
  end.

(** The invocations the primary's part of such a call makes: none when
    the primary is not called, its whole budget when it is. *)
Definition primaryAttempts (m : LegacyProviderManager GoogleAIProvider) : nat :=
  match providers m !! primary m with
  | Some q => if IsAvailable q then Z.to_nat (MaxRetries (retryConfig q) + 1) else 0%nat
  | None => 0%nat
  end.

(** The world the primary's part of a call leaves: the world the call
    started in when the primary is not called, the world after its
    [GenerateText] when it is. *)
Definition afterPrimary (prompt : string)
    (m : LegacyProviderManager GoogleAIProvider) (w : World) : World :=
  match providers m !! primary m with
  | Some q =>
      if IsAvailable q
      then snd (GenerateText prompt q (emit (EvPrimary (primary m)) w))
      else w
  | None => w
  end.

(** ** Stubs to run the code on *)

(** A model that fails its first [fails] invocations with [failure] and
    answers [last] from then on, under a context that is done in the
    select number [cancelAt], if any. *)
Definition stub (fails : nat) (failure : error) (last : string * option error)
    (cancelAt : option nat) : Oracle :=
  {| genkit_GenerateText := fun n _ =>
       if (n <? fails)%nat then (""%string, Some failure) else last;
     genkit_Generate := fun n _ =>
       if (n <? fails)%nat then (None, Some failure)
       else match snd last with
            | None => (Some (mkModelResponse (fst last)), None)
            | Some e => (None, Some e)
            end;
     ctx_Done := fun k =>
       match cancelAt with
       | Some j => if (k =? j)%nat then Some Canceled else None
       | None => None
       end;
     genkit_Init := fun _ => (Some 0%nat, None);
     googleAI_Init := fun _ _ => None;
     time_Since := fun _ => 0;
     fmt_params := fun _ => "map[]"%string |}.

Definition plainHandler : ErrorHandler :=
  {| eh_New := fun msg _ => errorString msg;
     eh_Wrap := fun err msg _ => wrapError (msg +:+ ": " +:+ Error err) err |}.

(** A provider as a successful [Initialize] leaves it. *)
Definition readyProvider : GoogleAIProvider :=
  mkProvider true defaultRetryConfig (mkConfig "key" "gemini-1.5-flash")
             plainHandler (Some 0%nat).

Definition errTimeout : error := errorString "request timeout".
Definition errAuth : error := errorString "API key not valid".
Definition errSchema : error :=
  errorString "generation did not result in a message matching expected schema".

(** How many backoff waits a log shows run to their end. *)
Definition isTimer (ev : event) : bool :=
  match ev with EvTimerFired _ _ => true | _ => false end.

Definition timers (l : list event) : nat := length (List.filter isTimer l).

(** The time a log shows spent in backoffs run to their end. *)
Fixpoint waited (l : list event) : Z :=
  match l with
  | [] => 0
  | EvTimerFired _ delay :: rest => delay + waited rest
  | _ :: rest => waited rest
  end.

(** The model a configuration asks for: its ["default_model"] when that
    is a non-empty string, the provider's default otherwise. *)
Definition configuredModel (cfg : gmap string any) : string :=
  match cfg !! "default_model"%string with
  | Some (AnyString m) => if String.eqb m "" then "gemini-1.5-flash"%string else m
  | _ => "gemini-1.5-flash"%string
  end.

(** The prompt [CallTool] builds for a tool and its rendered parameters. *)
Definition toolPromptOf (toolName shown : string) : string :=
  ("Execute tool '" +:+ toolName +:+ "' with parameters: " +:+ shown
   +:+ ". Return the result in a structured format.")%string.

(** * Properties *)

(** ** Arithmetic *)

Lemma wrap64_in_range z : Int64.in_range z -> Int64.wrap64 z = z.
Proof.
  unfold Int64.in_range, Int64.wrap64, Int64.min_int, Int64.max_int.
  intros Hz. rewrite Z.mod_small; lia.
Qed.

Lemma wrap64_mul_r a b : Int64.wrap64 (a * Int64.wrap64 b) = Int64.wrap64 (a * b).
Proof.
  unfold Int64.wrap64. f_equal.
  pose proof (Z.div_mod (b + 2 ^ 63) (2 ^ 64) ltac:(lia)) as Hdm.
  set (q := (b + 2 ^ 63) / 2 ^ 64) in *.
  set (r := (b + 2 ^ 63) mod 2 ^ 64) in *.
  replace (a * (r - 2 ^ 63) + 2 ^ 63)
    with (a * b + 2 ^ 63 + (- (a * q)) * 2 ^ 64) by lia.
  apply Z.mod_add. lia.
Qed.

Lemma backoffDelay_wrap rc k :
  1 <= k <= Int64.max_int ->
  backoffDelay rc k = Z.min (Int64.wrap64 (BaseDelay rc * 2 ^ (k - 1))) (MaxDelay rc).
Proof.
  intros Hk. unfold backoffDelay, Int64.mul, Int64.shl, Int64.sub.
  rewrite (wrap64_in_range (k - 1)).
  - rewrite Z.shiftl_1_l, wrap64_mul_r. reflexivity.
  - unfold Int64.in_range, Int64.min_int, Int64.max_int in *. lia.
Qed.

Lemma backoffDelay_exact rc k :
  1 <= k -> Int64.in_range (BaseDelay rc * 2 ^ (k - 1)) ->
  backoffDelay rc k = specDelay rc k.
Proof.
  intros Hk Hfit. unfold specDelay.
  destruct (Z.eq_dec (BaseDelay rc) 0) as [H0 | H0].
  - unfold backoffDelay, Int64.mul. rewrite H0. reflexivity.
  - assert (Hk' : k <= Int64.max_int).
    { unfold Int64.in_range, Int64.min_int, Int64.max_int in *.
      destruct (Z_le_gt_dec k 65) as [|Hbig]; [lia|].
      exfalso.
      assert (Hp : 2 ^ 64 <= 2 ^ (k - 1)) by (apply Z.pow_le_mono_r; lia).
      assert (Habs : 2 ^ 64 <= Z.abs (BaseDelay rc * 2 ^ (k - 1))).
      { rewrite Z.abs_mul, (Z.abs_eq (2 ^ (k - 1))) by lia. nia. }
      lia. }
    rewrite backoffDelay_wrap by lia.
    rewrite wrap64_in_range by assumption. reflexivity.
Qed.

(** ** The log *)

Lemma attempts_app l1 l2 : attempts (l1 ++ l2) = (attempts l1 + attempts l2)%nat.
Proof. unfold attempts. rewrite List.filter_app, List.length_app. reflexivity. Qed.

Lemma attempts_generate r l : attempts (EvGenerate r :: l) = S (attempts l).
Proof. reflexivity. Qed.

Lemma attempts_nil : attempts [] = 0%nat.
Proof. reflexivity. Qed.

Lemma log_emit ev w : log (emit ev w) = log w ++ [ev].
Proof. reflexivity. Qed.

(** ** One round of the loop *)

Section RetryFacts.

Context {A : Type} (zero : A) (what : string).
Variable rc : RetryConfig.
Variable fn : M (A * option error).
Variable answer : Oracle -> nat -> A * option error.
Variable req : Request.
Hypothesis Hfn : invokes fn answer req.

Lemma retryFrom_exit fuel attempt lastErr w :
  MaxRetries rc < attempt ->
  retryFrom zero what rc fn (S fuel) attempt lastErr w = (exhausted zero what rc lastErr, w).
Proof.
  intros Hgt. simpl. destruct (Z.leb_spec attempt (MaxRetries rc)); [lia | reflexivity].
Qed.

Lemma body_attemptOnce fuel attempt w :
  (r <~ fn ;;
   let (result, err) := r in
   match err with
   | None => ret (Return result None)
   | Some _ =>
       if negb (isRetryable err)
       then ret (Return zero (Some (Errorf_failed_after what
                   (Int64.add (MaxRetries rc) 1) err)))
       else retryFrom zero what rc fn fuel (Int64.add attempt 1) err
   end) w = attemptOnce zero what rc fn answer req fuel attempt w.
Proof.
  unfold bind, attemptOnce. rewrite Hfn.
  destruct (answer (oracle w) (calls w)) as [result [e|]]; [|reflexivity].
  destruct (isRetryable (Some e)); reflexivity.
Qed.

Lemma retryFrom_first fuel attempt lastErr w :
  attempt <= MaxRetries rc -> attempt <= 0 ->
  retryFrom zero what rc fn (S fuel) attempt lastErr w = attemptOnce zero what rc fn answer req fuel attempt w.
Proof.
  intros Hle H0. simpl.
  destruct (Z.leb_spec attempt (MaxRetries rc)); [|lia].
  destruct (Z.ltb_spec 0 attempt); [lia|].
  apply body_attemptOnce.
Qed.

Lemma retryFrom_timer fuel attempt e0 w :
  0 < attempt <= MaxRetries rc ->
  ctx_Done (oracle w) (selects w) = None ->
  retryFrom zero what rc fn (S fuel) attempt (Some e0) w
  = attemptOnce zero what rc fn answer req fuel attempt
      (emit (EvTimerFired attempt (backoffDelay rc attempt))
         (mkWorld (oracle w) (calls w) (S (selects w)) (inits w) (log w))).
Proof.
  intros [H0 Hle] Hsel. simpl.
  destruct (Z.leb_spec attempt (MaxRetries rc)); [|lia].
  destruct (Z.ltb_spec 0 attempt); [|lia].
  unfold bind at 1. unfold selectDoneOrAfter. rewrite Hsel.
  apply body_attemptOnce.
Qed.

Lemma retryFrom_done fuel attempt e0 ce w :
  0 < attempt <= MaxRetries rc ->
  ctx_Done (oracle w) (selects w) = Some ce ->
  retryFrom zero what rc fn (S fuel) attempt (Some e0) w
  = (Return zero (Some ce),
     emit (EvCtxDone attempt (backoffDelay rc attempt) ce)
       (mkWorld (oracle w) (calls w) (S (selects w)) (inits w) (log w))).
Proof.
  intros [H0 Hle] Hsel. simpl.
  destruct (Z.leb_spec attempt (MaxRetries rc)); [|lia].
  destruct (Z.ltb_spec 0 attempt); [|lia].
  unfold bind at 1. unfold selectDoneOrAfter. rewrite Hsel. reflexivity.
Qed.

End RetryFacts.

(** ** What every run of the loop leaves in the log *)

Section RetryLog.

Context {A : Type} (zero : A) (what : string).
Variable rc : RetryConfig.
Variable fn : M (A * option error).
Variable answer : Oracle -> nat -> A * option error.
Variable req : Request.
Hypothesis Hfn : invokes fn answer req.

Lemma wellEnded_split evs1 k d ce evs2 out :
  wellEnded zero (evs1 ++ EvCtxDone k d ce :: evs2) out ->
  evs2 = [] /\ out = Return zero (Some ce).
Proof.
  induction evs1 as [|ev evs1 IH]; simpl.
  - tauto.
  - destruct ev; try exact IH.
    intros [Hnil _]. destruct evs1; discriminate Hnil.
Qed.

Lemma retryFrom_log fuel : forall attempt lastErr w out w',
  retryFrom zero what rc fn fuel attempt lastErr w = (out, w') ->
  oracle w' = oracle w /\
  exists evs, log w' = log w ++ evs /\
              calls w' = (calls w + attempts evs)%nat /\
              Forall (roundEvent rc req) evs /\ wellEnded zero evs out.
Proof.
  induction fuel as [|fuel IH]; intros attempt lastErr w out w' Hrun.
  - inversion Hrun; subst. split; [reflexivity|].
    exists []. rewrite app_nil_r. simpl. auto with arith.
  - assert (Hbody : forall w0 evs0,
              oracle w0 = oracle w -> log w0 = log w ++ evs0 -> calls w0 = calls w ->
              attempts evs0 = 0%nat -> Forall (roundEvent rc req) evs0 ->
              (forall rest o, wellEnded zero rest o -> wellEnded zero (evs0 ++ rest) o) ->
              attemptOnce zero what rc fn answer req fuel attempt w0 = (out, w') ->
              oracle w' = oracle w /\
              exists evs, log w' = log w ++ evs /\
                          calls w' = (calls w + attempts evs)%nat /\
                          Forall (roundEvent rc req) evs /\ wellEnded zero evs out).
    { intros w0 evs0 Ho Hl Hc Ha Hf Hw Hone. unfold attemptOnce in Hone.
      destruct (answer (oracle w0) (calls w0)) as [result [e|]].
      - destruct (isRetryable (Some e)).
        + apply IH in Hone. destruct Hone as [Ho' (evs & Hl' & Hc' & Hf' & Hw')].
          split; [simpl in Ho'; congruence|].
          exists (evs0 ++ EvGenerate req :: evs). simpl in Hl', Hc'.
          rewrite Hl', Hl, Hc', Hc, <- !app_assoc. simpl.
          repeat split.
          * rewrite attempts_app, Ha, attempts_generate. lia.
          * apply Forall_app. split; [assumption|]. constructor; [reflexivity|assumption].
          * apply Hw. exact Hw'.
        + inversion Hone; subst. split; [simpl; assumption|].
          exists (evs0 ++ [EvGenerate req]). simpl. rewrite Hl, <- app_assoc, Hc.
          repeat split.
          * rewrite attempts_app, Ha, attempts_generate, attempts_nil. lia.
          * apply Forall_app. split; [assumption|]. repeat constructor.
          * apply Hw. simpl. exact I.
      - inversion Hone; subst. split; [simpl; assumption|].
        exists (evs0 ++ [EvGenerate req]). simpl. rewrite Hl, <- app_assoc, Hc.
        repeat split.
        * rewrite attempts_app, Ha, attempts_generate, attempts_nil. lia.
        * apply Forall_app. split; [assumption|]. repeat constructor.
        * apply Hw. simpl. exact I. }
    destruct (Z_le_gt_dec attempt (MaxRetries rc)) as [Hle|Hgt].
    + destruct (Z_lt_le_dec 0 attempt) as [Hpos|Hnp].
      * destruct lastErr as [e0|].
        -- destruct (ctx_Done (oracle w) (selects w)) as [ce|] eqn:Hsel.
           ++ rewrite retryFrom_done with (ce := ce) in Hrun by (auto; lia).
              inversion Hrun; subst. split; [reflexivity|].
              exists [EvCtxDone attempt (backoffDelay rc attempt) ce]. simpl.
              repeat split; auto with arith. constructor; [|constructor].
              simpl. split; [lia | reflexivity].
           ++ rewrite (retryFrom_timer zero what rc fn answer req Hfn fuel attempt e0 w)
                in Hrun by (auto; lia).
              eapply (Hbody _ [EvTimerFired attempt (backoffDelay rc attempt)]);
                try exact Hrun; try reflexivity; auto.
              constructor; [|constructor]. simpl. split; [lia | reflexivity].
        -- simpl in Hrun.
           destruct (Z.leb_spec attempt (MaxRetries rc)); [|lia].
           destruct (Z.ltb_spec 0 attempt); [|lia].
           inversion Hrun; subst. split; [reflexivity|].
           exists []. rewrite app_nil_r. simpl. auto with arith.
      * rewrite (retryFrom_first zero what rc fn answer req Hfn fuel attempt lastErr w)
          in Hrun by lia.
        eapply (Hbody _ []); try exact Hrun; try reflexivity; auto.
        rewrite app_nil_r. reflexivity.
    + rewrite retryFrom_exit in Hrun by lia.
      inversion Hrun; subst. split; [reflexivity|].
      exists []. rewrite app_nil_r. simpl. auto with arith.
Qed.

End RetryLog.


(** ** Runs in which the first calls fail *)

Section RetryRuns.

Context {A : Type} (zero : A) (what : string).
Variable rc : RetryConfig.
Variable fn : M (A * option error).
Variable answer : Oracle -> nat -> A * option error.
Variable req : Request.
Hypothesis Hfn : invokes fn answer req.

Lemma round_passes fuel attempt lastErr w :
  0 <= attempt <= MaxRetries rc ->
  (0 < attempt -> lastErr <> None) ->
  neverDone (oracle w) ->
  exists w0,
    retryFrom zero what rc fn (S fuel) attempt lastErr w
    = attemptOnce zero what rc fn answer req fuel attempt w0
    /\ oracle w0 = oracle w /\ calls w0 = calls w
    /\ attempts (log w0) = attempts (log w).
Proof.
  intros [H0 Hle] Hlast Hnever.
  destruct (Z_lt_le_dec 0 attempt) as [Hpos|Hnp].
  - destruct lastErr as [e0|]; [|exfalso; apply (Hlast Hpos); reflexivity].
    eexists. split.
    + apply (retryFrom_timer zero what rc fn answer req Hfn); [lia | apply Hnever].
    + simpl. rewrite attempts_app. cbn. repeat split; lia.
  - exists w. split; [|auto].
    apply (retryFrom_first zero what rc fn answer req Hfn); lia.
Qed.

Lemma attemptOnce_transient fuel attempt w r e :
  answer (oracle w) (calls w) = (r, Some e) -> isRetryable (Some e) = true ->
  attemptOnce zero what rc fn answer req fuel attempt w
  = retryFrom zero what rc fn fuel (Int64.add attempt 1) (Some e)
      (emit (EvGenerate req) (bumpCalls w)).
Proof. intros Ha Hr. unfold attemptOnce. rewrite Ha, Hr. reflexivity. Qed.

Lemma attemptOnce_fatal fuel attempt w r e :
  answer (oracle w) (calls w) = (r, Some e) -> isRetryable (Some e) = false ->
  attemptOnce zero what rc fn answer req fuel attempt w
  = (exhausted zero what rc (Some e), emit (EvGenerate req) (bumpCalls w)).
Proof. intros Ha Hr. unfold attemptOnce. rewrite Ha, Hr. reflexivity. Qed.

Lemma attemptOnce_success fuel attempt w r :
  answer (oracle w) (calls w) = (r, None) ->
  attemptOnce zero what rc fn answer req fuel attempt w
  = (Return r None, emit (EvGenerate req) (bumpCalls w)).
Proof. intros Ha. unfold attemptOnce. rewrite Ha. reflexivity. Qed.

Lemma attempts_after_call w :
  attempts (log (emit (EvGenerate req) (bumpCalls w))) = S (attempts (log w)).
Proof. simpl. rewrite attempts_app, attempts_generate, attempts_nil. lia. Qed.

(** [n] transient failures in a row take the loop [n] rounds further. *)
Lemma retry_progress n : forall fuel attempt lastErr w,
  0 <= attempt ->
  attempt + Z.of_nat n <= MaxRetries rc + 1 ->
  attempt + Z.of_nat n <= Int64.max_int ->
  (0 < attempt -> lastErr <> None) ->
  neverDone (oracle w) ->
  failsTransiently (answer (oracle w)) (calls w) n ->
  exists lastErr' w',
    retryFrom zero what rc fn (n + fuel) attempt lastErr w
    = retryFrom zero what rc fn fuel (attempt + Z.of_nat n) lastErr' w'
    /\ oracle w' = oracle w
    /\ calls w' = (calls w + n)%nat
    /\ attempts (log w') = (attempts (log w) + n)%nat
    /\ (0 < attempt + Z.of_nat n -> lastErr' <> None)
    /\ match n with
       | O => lastErr' = lastErr
       | S m => exists r e, answer (oracle w) (calls w + m)%nat = (r, Some e)
                            /\ lastErr' = Some e
       end.
Proof.
  induction n as [|n IH]; intros fuel attempt lastErr w H0 Hle Hmax Hlast Hnever Hfail.
  - exists lastErr, w. rewrite Z.add_0_r, !Nat.add_0_r. simpl. repeat split; auto.
  - destruct (Hfail 0%nat ltac:(lia)) as (r & e & Hans & Hretry).
    rewrite Nat.add_0_r in Hans.
    destruct (round_passes (n + fuel) attempt lastErr w) as (w0 & Hrun & Ho & Hc & Hat);
      [lia | assumption | assumption |].
    rewrite <- Ho, <- Hc in Hans.
    rewrite (attemptOnce_transient _ _ _ _ _ Hans Hretry) in Hrun.
    assert (Hadd : Int64.add attempt 1 = attempt + 1).
    { apply wrap64_in_range. unfold Int64.in_range, Int64.min_int, Int64.max_int in *. lia. }
    rewrite Hadd in Hrun.
    destruct (IH fuel (attempt + 1) (Some e) (emit (EvGenerate req) (bumpCalls w0)))
      as (lastErr' & w' & Hrun' & Ho' & Hc' & Hat' & Hlast' & Hn); try lia.
    { discriminate. }
    { simpl. rewrite Ho. assumption. }
    { intros i Hi. simpl. rewrite Ho, Hc.
      destruct (Hfail (S i) ltac:(lia)) as (r' & e' & Ha' & Hr').
      exists r', e'. split; [|assumption]. rewrite <- Ha'. f_equal. lia. }
    exists lastErr', w'. simpl plus. rewrite Hrun, Hrun'.
    rewrite attempts_after_call in Hat'. simpl in Ho', Hc'.
    repeat split.
    + f_equal. lia.
    + congruence.
    + lia.
    + lia.
    + intros _. apply Hlast'. lia.
    + destruct n as [|m].
      * exists r, e. subst lastErr'. split; [|reflexivity].
        rewrite Nat.add_0_r. rewrite <- Ho, <- Hc. assumption.
      * destruct Hn as (r' & e' & Ha' & He'). exists r', e'. split; [|assumption].
        simpl in Ha'. rewrite Ho, Hc in Ha'. rewrite <- Ha'. f_equal. lia.
Qed.

(** The round after [N] transient failures, when the loop allows one. *)
Lemma retryLoop_reaches N w :
  Z.of_nat N <= MaxRetries rc -> MaxRetries rc < Int64.max_int ->
  neverDone (oracle w) ->
  failsTransiently (answer (oracle w)) (calls w) N ->
  exists fuel w0,
    retryLoop zero what rc fn w
    = attemptOnce zero what rc fn answer req fuel (Z.of_nat N) w0
    /\ oracle w0 = oracle w /\ calls w0 = (calls w + N)%nat
    /\ attempts (log w0) = (attempts (log w) + N)%nat.
Proof.
  intros HN Hmax Hnever Hfail. unfold retryLoop.
  set (k := (Z.to_nat (MaxRetries rc + 1) - N - 1)%nat).
  replace (S (Z.to_nat (MaxRetries rc + 1))) with (N + S (S k))%nat by lia.
  destruct (retry_progress N (S (S k)) 0 None w)
    as (lastErr' & w1 & Hrun & Ho & Hc & Hat & Hlast & _);
    try assumption; try lia.
  rewrite Hrun, Z.add_0_l in *.
  destruct (round_passes (S k) (Z.of_nat N) lastErr' w1)
    as (w0 & Hrun0 & Ho0 & Hc0 & Hat0); try assumption; try lia.
  { unfold neverDone. rewrite Ho. assumption. }
  exists (S k), w0. rewrite Hrun0. repeat split; congruence.
Qed.

Lemma retryLoop_success N r w :
  Z.of_nat N <= MaxRetries rc -> MaxRetries rc < Int64.max_int ->
  neverDone (oracle w) ->
  failsTransiently (answer (oracle w)) (calls w) N ->
  answer (oracle w) (calls w + N)%nat = (r, None) ->
  exists w',
    retryLoop zero what rc fn w = (Return r None, w')
    /\ attempts (log w') = (attempts (log w) + N + 1)%nat.
Proof.
  intros HN Hmax Hnever Hfail Hok.
  destruct (retryLoop_reaches N w) as (fuel & w0 & Hrun & Ho & Hc & Hat); try assumption.
  rewrite <- Ho, <- Hc in Hok.
  rewrite (attemptOnce_success _ _ _ _ Hok) in Hrun.
  eexists. split; [exact Hrun|]. rewrite attempts_after_call. lia.
Qed.

Lemma retryLoop_fatal N r e w :
  Z.of_nat N <= MaxRetries rc -> MaxRetries rc < Int64.max_int ->
  neverDone (oracle w) ->
  failsTransiently (answer (oracle w)) (calls w) N ->
  answer (oracle w) (calls w + N)%nat = (r, Some e) ->
  isRetryable (Some e) = false ->
  exists w',
    retryLoop zero what rc fn w = (exhausted zero what rc (Some e), w')
    /\ attempts (log w') = (attempts (log w) + N + 1)%nat.
Proof.
  intros HN Hmax Hnever Hfail Hans Hfatal.
  destruct (retryLoop_reaches N w) as (fuel & w0 & Hrun & Ho & Hc & Hat); try assumption.
  rewrite <- Ho, <- Hc in Hans.
  rewrite (attemptOnce_fatal _ _ _ _ _ Hans Hfatal) in Hrun.
  eexists. split; [exact Hrun|]. rewrite attempts_after_call. lia.
Qed.

(** Every allowed round fails transiently: the loop ends by its condition. *)
Lemma retryLoop_exhausted w :
  MaxRetries rc < Int64.max_int ->
  neverDone (oracle w) ->
  failsTransiently (answer (oracle w)) (calls w) (Z.to_nat (MaxRetries rc + 1)) ->
  exists lastErr w',
    retryLoop zero what rc fn w = (exhausted zero what rc lastErr, w')
    /\ attempts (log w') = (attempts (log w) + Z.to_nat (MaxRetries rc + 1))%nat
    /\ match Z.to_nat (MaxRetries rc + 1) with
       | O => lastErr = None
       | S m => exists r e, answer (oracle w) (calls w + m)%nat = (r, Some e)
                            /\ lastErr = Some e
       end.
Proof.
  intros Hmax Hnever Hfail. unfold retryLoop.
  destruct (Z_lt_le_dec (MaxRetries rc + 1) 0) as [Hneg|Hpos].
  - replace (Z.to_nat (MaxRetries rc + 1)) with 0%nat by lia.
    exists None, w. rewrite retryFrom_exit by lia.
    repeat split. lia.
  - remember (Z.to_nat (MaxRetries rc + 1)) as n eqn:Hn.
    replace (S n) with (n + 1)%nat by lia.
    destruct (retry_progress n 1 0 None w)
      as (lastErr' & w1 & Hrun & Ho & Hc & Hat & Hlast & Hlast');
      try assumption; try lia.
    exists lastErr', w1. rewrite Hrun, retryFrom_exit by lia.
    repeat split; assumption.
Qed.

End RetryRuns.

(** ** The trace of a run whose first calls fail *)

Section RetryTrace.

Context {A : Type} (zero : A) (what : string).
Variable rc : RetryConfig.
Variable fn : M (A * option error).
Variable answer : Oracle -> nat -> A * option error.
Variable req : Request.
Hypothesis Hfn : invokes fn answer req.

Lemma retryRounds_snoc first n :
  retryRounds rc req first (S n)
  = retryRounds rc req first n
    ++ [EvTimerFired (first + Z.of_nat n) (backoffDelay rc (first + Z.of_nat n));
        EvGenerate req].
Proof.
  revert first. induction n as [|n IH]; intros first.
  - simpl. rewrite Z.add_0_r. reflexivity.
  - change (retryRounds rc req first (S (S n)))
      with (EvTimerFired first (backoffDelay rc first)
            :: EvGenerate req :: retryRounds rc req (first + 1) (S n)).
    rewrite IH. simpl.
    replace (first + 1 + Z.of_nat n) with (first + Z.pos (Pos.of_succ_nat n)) by lia.
    reflexivity.
Qed.

(** From a retry on: [n] rounds whose select is left by the timer and
    whose invocation fails transiently. *)
Lemma retry_rounds n : forall fuel attempt e0 w,
  1 <= attempt ->
  attempt + Z.of_nat n <= MaxRetries rc + 1 ->
  attempt + Z.of_nat n <= Int64.max_int ->
  waitsThrough (oracle w) (selects w) n ->
  failsTransiently (answer (oracle w)) (calls w) n ->
  exists e' w',
    retryFrom zero what rc fn (n + fuel) attempt (Some e0) w
    = retryFrom zero what rc fn fuel (attempt + Z.of_nat n) (Some e') w'
    /\ oracle w' = oracle w
    /\ calls w' = (calls w + n)%nat
    /\ selects w' = (selects w + n)%nat
    /\ log w' = log w ++ retryRounds rc req attempt n.
Proof.
  induction n as [|n IH]; intros fuel attempt e0 w H1 Hle Hmax Hwait Hfail.
  - exists e0, w. rewrite Z.add_0_r, !Nat.add_0_r, app_nil_r. auto.
  - destruct (Hfail 0%nat ltac:(lia)) as (r & e & Hans & Hretry).
    rewrite Nat.add_0_r in Hans.
    pose proof (Hwait 0%nat ltac:(lia)) as Hsel. rewrite Nat.add_0_r in Hsel.
    set (w0 := emit (EvTimerFired attempt (backoffDelay rc attempt))
                 (mkWorld (oracle w) (calls w) (S (selects w)) (inits w) (log w))).
    set (w1 := emit (EvGenerate req) (bumpCalls w0)).
    assert (Hadd : Int64.add attempt 1 = attempt + 1).
    { apply wrap64_in_range. unfold Int64.in_range, Int64.min_int, Int64.max_int in *. lia. }
    destruct (IH fuel (attempt + 1) e w1) as (e' & w' & Hrun & Ho & Hc & Hs & Hl);
      try lia.
    { intros i Hi. simpl. specialize (Hwait (S i) ltac:(lia)).
      rewrite <- Hwait. f_equal. lia. }
    { intros i Hi. simpl.
      destruct (Hfail (S i) ltac:(lia)) as (r' & e1 & Ha' & Hr').
      exists r', e1. split; [|assumption]. rewrite <- Ha'. f_equal. lia. }
    exists e', w'. simpl plus.
    rewrite (retryFrom_timer zero what rc fn answer req Hfn) by (auto; lia).
    fold w0.
    rewrite (attemptOnce_transient zero what rc fn answer req _ _ w0 r e Hans Hretry).
    fold w1. rewrite Hadd, Hrun. simpl in Ho, Hc, Hs, Hl.
    split; [f_equal; lia|].
    split; [assumption|]. split; [lia|]. split; [lia|].
    rewrite Hl, <- !app_assoc. reflexivity.
Qed.

(** After [S m] transient failures, the loop stands before the select of
    retry [S m]; the context did not interrupt the [m] selects before. *)
Lemma retryLoop_rounds m w :
  Z.of_nat (S m) <= MaxRetries rc <= Int64.max_int ->
  waitsThrough (oracle w) (selects w) m ->
  failsTransiently (answer (oracle w)) (calls w) (S m) ->
  exists fuel e' w2,
    retryLoop zero what rc fn w
    = retryFrom zero what rc fn (S fuel) (Z.of_nat (S m)) (Some e') w2
    /\ oracle w2 = oracle w
    /\ calls w2 = (calls w + S m)%nat
    /\ selects w2 = (selects w + m)%nat
    /\ log w2 = log w ++ EvGenerate req :: retryRounds rc req 1 m.
Proof.
  intros [HN Hmax] Hwait Hfail. unfold retryLoop.
  destruct (Hfail 0%nat ltac:(lia)) as (r & e & Hans & Hretry).
  rewrite Nat.add_0_r in Hans.
  set (k := (Z.to_nat (MaxRetries rc + 1) - m - 2)%nat).
  replace (Z.to_nat (MaxRetries rc + 1)) with (m + S (S k))%nat by lia.
  rewrite (retryFrom_first zero what rc fn answer req Hfn) by lia.
  rewrite (attemptOnce_transient zero what rc fn answer req _ _ w r e Hans Hretry).
  change (Int64.add 0 1) with 1.
  set (w1 := emit (EvGenerate req) (bumpCalls w)).
  destruct (retry_rounds m (S (S k)) 1 e w1) as (e' & w2 & Hrun & Ho & Hc & Hs & Hl);
    try lia.
  { intros i Hi. simpl. apply Hwait. assumption. }
  { intros i Hi. simpl.
    destruct (Hfail (S i) ltac:(lia)) as (r' & e1 & Ha' & Hr').
    exists r', e1. split; [|assumption]. rewrite <- Ha'. f_equal. lia. }
  exists (S k), e', w2. rewrite Hrun. simpl in Ho, Hc, Hs, Hl.
  split; [f_equal; lia|].
  split; [assumption|]. split; [lia|]. split; [lia|].
  rewrite Hl, <- app_assoc. reflexivity.
Qed.

(** An invocation is the first thing a round leaves in the log once its
    select is passed. *)
Lemma attemptOnce_log fuel attempt w0 out w' :
  attemptOnce zero what rc fn answer req fuel attempt w0 = (out, w') ->
  exists rest, log w' = log w0 ++ EvGenerate req :: rest.
Proof.
  unfold attemptOnce. intros Hrun.
  destruct (answer (oracle w0) (calls w0)) as [result [e|]].
  - destruct (isRetryable (Some e)).
    + apply (retryFrom_log zero what rc fn answer req Hfn) in Hrun.
      destruct Hrun as [_ (evs & Hl & _)]. exists evs.
      rewrite Hl. simpl. rewrite <- app_assoc. reflexivity.
    + inversion Hrun; subst. exists []. reflexivity.
  - inversion Hrun; subst. exists []. reflexivity.
Qed.

(** The first [N] retries of a run whose first [N] invocations fail
    transiently: each is its wait and then its invocation. *)
Lemma retryLoop_trace N w :
  Z.of_nat N <= MaxRetries rc <= Int64.max_int ->
  waitsThrough (oracle w) (selects w) N ->
  failsTransiently (answer (oracle w)) (calls w) N ->
  exists out w' rest,
    retryLoop zero what rc fn w = (out, w')
    /\ log w' = log w ++ EvGenerate req :: retryRounds rc req 1 N ++ rest.
Proof.
  intros [HN Hmax] Hwait Hfail.
  destruct (retryLoop zero what rc fn w) as [out w'] eqn:Hloop.
  exists out, w'. destruct N as [|m].
  - unfold retryLoop in Hloop.
    rewrite (retryFrom_first zero what rc fn answer req Hfn) in Hloop by lia.
    apply attemptOnce_log in Hloop. destruct Hloop as [rest Hl].
    exists rest. split; [reflexivity | exact Hl].
  - destruct (retryLoop_rounds m w) as (fuel & e' & w2 & Hrun & Ho & Hc & Hs & Hl);
      [lia | intros i Hi; apply Hwait; lia | assumption |].
    rewrite Hrun in Hloop.
    rewrite (retryFrom_timer zero what rc fn answer req Hfn) in Hloop.
    + apply attemptOnce_log in Hloop. destruct Hloop as [rest Hl'].
      exists rest. split; [reflexivity|].
      rewrite Hl'. simpl log. rewrite Hl, retryRounds_snoc, <- !app_assoc. simpl.
      replace (1 + Z.of_nat m) with (Z.of_nat (S m)) by lia. reflexivity.
    + lia.
    + rewrite Ho, Hs. apply Hwait. lia.
Qed.

(** When the context takes the select of retry [S j], the call ends
    there, with the context's error. *)
Lemma retryLoop_interrupted j ce w :
  Z.of_nat (S j) <= MaxRetries rc <= Int64.max_int ->
  failsTransiently (answer (oracle w)) (calls w) (S j) ->
  waitsThrough (oracle w) (selects w) j ->
  ctx_Done (oracle w) (selects w + j)%nat = Some ce ->
  exists w',
    retryLoop zero what rc fn w = (Return zero (Some ce), w')
    /\ calls w' = (calls w + S j)%nat
    /\ log w'
       = log w ++ (EvGenerate req :: retryRounds rc req 1 j)
           ++ [EvCtxDone (Z.of_nat (S j)) (backoffDelay rc (Z.of_nat (S j))) ce].
Proof.
  intros HN Hfail Hwait Hdone.
  destruct (retryLoop_rounds j w) as (fuel & e' & w2 & Hrun & Ho & Hc & Hs & Hl);
    try assumption.
  rewrite Hrun.
  rewrite retryFrom_done with (ce := ce); [| lia | rewrite Ho, Hs; assumption].
  eexists. split; [reflexivity|]. simpl. split; [assumption|].
  rewrite Hl, <- app_assoc. reflexivity.
Qed.

End RetryTrace.

(** Where the backoffs fit, the rounds the code makes are the rounds the
    spec asks for. *)
Lemma retryRounds_spec rc req n : forall first,
  backoffFits rc ->
  1 <= first -> first + Z.of_nat n - 1 <= MaxRetries rc ->
  retryRounds rc req first n = backoffRounds rc req first n.
Proof.
  induction n as [|n IH]; intros first Hfits H1 Hle; [reflexivity|].
  simpl. rewrite IH by (assumption || lia).
  rewrite backoffDelay_exact; [reflexivity | lia | apply Hfits; lia].
Qed.

Lemma attempts_retryRounds rc req n : forall first,
  attempts (retryRounds rc req first n) = n.
Proof.
  induction n as [|n IH]; intros first; [reflexivity|].
  simpl. change (attempts (EvTimerFired first (backoffDelay rc first)
                           :: EvGenerate req :: retryRounds rc req (first + 1) n))
    with (S (attempts (retryRounds rc req (first + 1) n))).
  rewrite IH. reflexivity.
Qed.

(** ** Attempts of the retry loop (C1) *)

Lemma genkitGenerateText_invokes req :
  invokes (genkitGenerateText req) (fun o n => genkit_GenerateText o n req) req.
Proof. intros w. reflexivity. Qed.

Lemma genkitGenerate_invokes req :
  invokes (genkitGenerate req) (fun o n => genkit_Generate o n req) req.
Proof. intros w. reflexivity. Qed.

Lemma toolCall_invokes req :
  invokes (toolCall req)
    (fun o n =>
       let (result, err) := genkit_Generate o n req in
       match err with
       | Some _ => (""%string, err)
       | None => (Text result, None)
       end) req.
Proof.
  intros w. unfold toolCall, bind, genkitGenerate.
  destruct (genkit_Generate (oracle w) (calls w) req) as [result [e|]]; reflexivity.
Qed.

Lemma add_MaxRetries rc :
  Int64.min_int <= MaxRetries rc < Int64.max_int ->
  Int64.add (MaxRetries rc) 1 = MaxRetries rc + 1.
Proof.
  intros H. apply wrap64_in_range.
  unfold Int64.in_range, Int64.min_int, Int64.max_int in *. lia.
Qed.

(** C1, as the code has it: when the underlying call fails transiently
    [N] times and then succeeds, and the context is never done,
    [withRetry] returns the success after exactly [N + 1] attempts
    whenever [N <= MaxRetries]; when [N > MaxRetries] it returns the
    aggregated failure after [MaxRetries + 1] attempts. *)
Theorem withRetry_fails_then_succeeds p fn answer req w N r :
  invokes fn answer req ->
  Int64.min_int <= MaxRetries (retryConfig p) < Int64.max_int ->
  neverDone (oracle w) ->
  failsTransiently (answer (oracle w)) (calls w) N ->
  answer (oracle w) (calls w + N)%nat = (r, None) ->
  (Z.of_nat N <= MaxRetries (retryConfig p) ->
     exists w',
       withRetry p fn w = (Return r None, w')
       /\ attempts (log w') = (attempts (log w) + (N + 1))%nat)
  /\ (MaxRetries (retryConfig p) < Z.of_nat N ->
     exists lastErr w',
       withRetry p fn w
       = (Return ""%string
            (Some (Errorf_failed_after "google AI request"
                     (MaxRetries (retryConfig p) + 1) lastErr)), w')
       /\ attempts (log w')
          = (attempts (log w) + Z.to_nat (MaxRetries (retryConfig p) + 1))%nat).
Proof.
  intros Hfn Hrange Hnever Hfail Hok. unfold withRetry. split.
  - intros HN.
    destruct (retryLoop_success ""%string "google AI request" (retryConfig p)
                fn answer req Hfn N r w) as (w' & Hrun & Hat);
      try assumption; try lia.
    exists w'. split; [assumption | lia].
  - intros HN.
    destruct (retryLoop_exhausted ""%string "google AI request" (retryConfig p)
                fn answer req Hfn w) as (lastErr & w' & Hrun & Hat & _);
      try assumption; try lia.
    { intros i Hi. apply Hfail. lia. }
    exists lastErr, w'. split; [|assumption].
    rewrite Hrun. unfold exhausted. rewrite add_MaxRetries by assumption. reflexivity.
Qed.

Lemma stub_failsTransiently n last cancelAt req :
  failsTransiently
    (fun k => genkit_GenerateText (stub n errTimeout last cancelAt) k req) 0 n.
Proof.
  intros i Hi. exists ""%string, errTimeout. simpl.
  destruct (Nat.ltb_spec i n); [|lia]. split; reflexivity.
Qed.

Lemma withRetry_fails_then_succeeds_witness :
  let req := mkRequest "gemini-1.5-flash" "hello" None in
  exists w',
    withRetry readyProvider (genkitGenerateText req)
      (newWorld (stub 2 errTimeout ("ok"%string, None) None))
    = (Return "ok"%string None, w')
    /\ attempts (log w') = 3%nat.
Proof.
  intros req.
  apply (withRetry_fails_then_succeeds readyProvider (genkitGenerateText req)
           (fun o n => genkit_GenerateText o n req) req
           (newWorld (stub 2 errTimeout ("ok"%string, None) None)) 2 "ok"%string).
  - apply genkitGenerateText_invokes.
  - vm_compute. split; [discriminate | reflexivity].
  - intros k. reflexivity.
  - apply stub_failsTransiently.
  - reflexivity.
  - vm_compute. discriminate.
Defined.

(** The boundary [N = maxRetries]: three transient failures and then a
    success, with [MaxRetries = 3]. The spec's sentence asks for the
    aggregated failure ([N >= maxRetries]); the fourth attempt is made and
    its success is what the call returns. *)
Lemma withRetry_boundary_counterexample :
  let req := mkRequest "gemini-1.5-flash" "hello" None in
  let o := stub 3 errTimeout ("ok"%string, None) None in
  let run := GenerateText "hello" readyProvider (newWorld o) in
  failsTransiently (fun k => genkit_GenerateText o k req) 0 3
  /\ genkit_GenerateText o 3 req = ("ok"%string, None)
  /\ Z.of_nat 3 >= MaxRetries (retryConfig readyProvider)
  /\ fst run = (readyProvider, Return "ok"%string None)
  /\ attempts (log (snd run)) = 4%nat
  /\ ~ (exists e, snd (fst run) = Return ""%string (Some e)).
Proof.
  intros req o run. split; [apply stub_failsTransiently|].
  split; [reflexivity|]. split; [simpl; lia|].
  split; [reflexivity|]. split; [reflexivity|].
  intros [e He]. vm_compute in He. discriminate He.
Qed.

(** ** Classification of errors (C2) *)

Lemma HasPrefix_spec s prefix :
  HasPrefix s prefix = true <-> exists rest, s = (prefix +:+ rest)%string.
Proof.
  revert s. induction prefix as [|c prefix IH]; intros s; simpl.
  - split; [intros _; exists s; reflexivity | intros _; destruct s; reflexivity].
  - destruct s as [|d s]; simpl.
    + split; [discriminate | intros [rest H]; discriminate H].
    + destruct (Ascii.eqb_spec c d) as [->|Hne].
      * rewrite IH. split; intros [rest H]; exists rest.
        -- rewrite H. reflexivity.
        -- inversion H. reflexivity.
      * split; [discriminate | intros [rest H]; inversion H; congruence].
Qed.

(** [Contains] is the substring test. *)
Lemma Contains_spec s substr :
  Contains s substr = true
  <-> exists before after, s = (before +:+ substr +:+ after)%string.
Proof.
  induction s as [|d s IH].
  - cbn [Contains]. rewrite orb_false_r, HasPrefix_spec. split.
    + intros [rest H]. exists ""%string, rest. exact H.
    + intros (before & after & H). destruct before; [exists after; exact H|discriminate H].
  - cbn [Contains]. rewrite orb_true_iff, HasPrefix_spec, IH. split.
    + intros [[rest H] | (before & after & H)].
      * exists ""%string, rest. exact H.
      * exists (String d before), after. rewrite H. reflexivity.
    + intros (before & after & H). destruct before as [|c before].
      * left. exists after. exact H.
      * right. exists before, after. inversion H. reflexivity.
Qed.

Lemma isRetryable_spec e :
  isRetryable (Some e) = true
  <-> exists pattern before after,
        In pattern retryablePatterns
        /\ ToLower (Error e) = (before +:+ pattern +:+ after)%string.
Proof.
  unfold isRetryable. rewrite existsb_exists. split.
  - intros (pattern & Hin & Hc). apply Contains_spec in Hc.
    destruct Hc as (before & after & H). exists pattern, before, after. auto.
  - intros (pattern & before & after & Hin & H). exists pattern. split; [assumption|].
    apply Contains_spec. exists before, after. exact H.
Qed.

(** C2: an error is transient exactly when its lower-cased text contains
    one of the retryable patterns, and fatal otherwise; when the call
    that follows [N] transient failures ends in a fatal error, [withRetry]
    makes no further attempt and returns the failure wrapping that
    error. *)
Theorem fatal_error_not_retried p fn answer req w N r e :
  invokes fn answer req ->
  Int64.min_int <= MaxRetries (retryConfig p) < Int64.max_int ->
  neverDone (oracle w) ->
  failsTransiently (answer (oracle w)) (calls w) N ->
  Z.of_nat N <= MaxRetries (retryConfig p) ->
  answer (oracle w) (calls w + N)%nat = (r, Some e) ->
  (isRetryable (Some e) = true
   <-> exists pattern before after,
         In pattern retryablePatterns
         /\ ToLower (Error e) = (before +:+ pattern +:+ after)%string)
  /\ (isRetryable (Some e) = false ->
      exists w',
        withRetry p fn w
        = (Return ""%string
             (Some (Errorf_failed_after "google AI request"
                      (MaxRetries (retryConfig p) + 1) (Some e))), w')
        /\ attempts (log w') = (attempts (log w) + (N + 1))%nat).
Proof.
  intros Hfn Hrange Hnever Hfail HN Hans. split; [apply isRetryable_spec|].
  intros Hfatal. unfold withRetry.
  destruct (retryLoop_fatal ""%string "google AI request" (retryConfig p)
              fn answer req Hfn N r e w) as (w' & Hrun & Hat);
    try assumption; try lia.
  exists w'. split; [|lia].
  rewrite Hrun. unfold exhausted. rewrite add_MaxRetries by assumption. reflexivity.
Qed.

Lemma fatal_error_not_retried_witness :
  let req := mkRequest "gemini-1.5-flash" "hello" None in
  let o := stub 1 errTimeout (""%string, Some errAuth) None in
  isRetryable (Some errAuth) = false
  /\ exists w',
       withRetry readyProvider (genkitGenerateText req) (newWorld o)
       = (Return ""%string
            (Some (Errorf_failed_after "google AI request" 4 (Some errAuth))), w')
       /\ attempts (log w') = 2%nat.
Proof.
  intros req o. split; [reflexivity|].
  apply (fatal_error_not_retried readyProvider (genkitGenerateText req)
           (fun o n => genkit_GenerateText o n req) req (newWorld o) 1
           ""%string errAuth).
  - apply genkitGenerateText_invokes.
  - vm_compute. split; [discriminate | reflexivity].
  - intros k. reflexivity.
  - apply stub_failsTransiently.
  - vm_compute. discriminate.
  - reflexivity.
  - reflexivity.
Defined.

(** ** The backoff (C3) *)

Lemma retryLoop_selects {A : Type} (zero : A) what rc fn answer req w out w' evs k d :
  invokes fn answer req ->
  backoffFits rc ->
  retryLoop zero what rc fn w = (out, w') ->
  log w' = log w ++ evs ->
  (In (EvTimerFired k d) evs \/ exists ce, In (EvCtxDone k d ce) evs) ->
  1 <= k <= MaxRetries rc /\ d = Z.min (BaseDelay rc * 2 ^ (k - 1)) (MaxDelay rc).
Proof.
  intros Hfn Hfits Hrun Hlog Hin. unfold retryLoop in Hrun.
  destruct (retryFrom_log zero what rc fn answer req Hfn _ _ _ _ _ _ Hrun)
    as [_ (evs' & Hlog' & _ & Hall & _)].
  rewrite Hlog in Hlog'. apply app_inv_head in Hlog'. subst evs'.
  rewrite List.Forall_forall in Hall.
  assert (Hk : 0 < k <= MaxRetries rc /\ d = backoffDelay rc k).
  { destruct Hin as [Hin | [ce Hin]]; apply Hall in Hin; exact Hin. }
  destruct Hk as [Hk ->]. split; [lia|].
  apply backoffDelay_exact; [lia | apply Hfits; lia].
Qed.

(** C3: under a configuration whose backoffs fit a 64-bit duration, every
    retry [k >= 1] of [withRetry] and of [withRetryStructured] comes after
    one wait of [min(BaseDelay * 2^(k-1), MaxDelay)]: in a run whose first
    [N] invocations fail transiently, and whose context lets the first
    [N] selects pass, the first invocation is followed by the retries
    [1 .. N], each its wait of that length and then its invocation. The
    delay computed before retry [k] is that minimum, and so is the delay
    of every select of any run, also of one the context wins. *)
Theorem backoff_is_exponential p w :
  backoffFits (retryConfig p) ->
  (forall fn answer req N,
     invokes fn answer req ->
     Z.of_nat N <= MaxRetries (retryConfig p) <= Int64.max_int ->
     waitsThrough (oracle w) (selects w) N ->
     failsTransiently (answer (oracle w)) (calls w) N ->
     exists out w' rest,
       withRetry p fn w = (out, w')
       /\ log w' = log w ++ EvGenerate req
                            :: backoffRounds (retryConfig p) req 1 N ++ rest)
  /\ (forall fn answer req N,
     invokes fn answer req ->
     Z.of_nat N <= MaxRetries (retryConfig p) <= Int64.max_int ->
     waitsThrough (oracle w) (selects w) N ->
     failsTransiently (answer (oracle w)) (calls w) N ->
     exists out w' rest,
       withRetryStructured p fn w = (out, w')
       /\ log w' = log w ++ EvGenerate req
                            :: backoffRounds (retryConfig p) req 1 N ++ rest)
  /\ (forall k, 1 <= k <= MaxRetries (retryConfig p) ->
     backoffDelay (retryConfig p) k
     = Z.min (BaseDelay (retryConfig p) * 2 ^ (k - 1)) (MaxDelay (retryConfig p)))
  /\ (forall fn answer req out w' evs k d,
        invokes fn answer req ->
        withRetry p fn w = (out, w') ->
        log w' = log w ++ evs ->
        (In (EvTimerFired k d) evs \/ exists ce, In (EvCtxDone k d ce) evs) ->
        1 <= k
        /\ d = Z.min (BaseDelay (retryConfig p) * 2 ^ (k - 1)) (MaxDelay (retryConfig p)))
  /\ (forall fn answer req out w' evs k d,
        invokes fn answer req ->
        withRetryStructured p fn w = (out, w') ->
        log w' = log w ++ evs ->
        (In (EvTimerFired k d) evs \/ exists ce, In (EvCtxDone k d ce) evs) ->
        1 <= k
        /\ d = Z.min (BaseDelay (retryConfig p) * 2 ^ (k - 1)) (MaxDelay (retryConfig p))).
Proof.
  intros Hfits.
  assert (Htrace : forall (A : Type) (zero : A) what fn answer req N,
            invokes fn answer req ->
            Z.of_nat N <= MaxRetries (retryConfig p) <= Int64.max_int ->
            waitsThrough (oracle w) (selects w) N ->
            failsTransiently (answer (oracle w)) (calls w) N ->
            exists out w' rest,
              retryLoop zero what (retryConfig p) fn w = (out, w')
              /\ log w' = log w ++ EvGenerate req
                                   :: backoffRounds (retryConfig p) req 1 N ++ rest).
  { intros A zero what fn answer req N Hfn HN Hwait Hfail.
    destruct (retryLoop_trace zero what (retryConfig p) fn answer req Hfn N w HN Hwait Hfail)
      as (out & w' & rest & Hrun & Hlog).
    exists out, w', rest. split; [assumption|].
    rewrite <- (retryRounds_spec (retryConfig p) req N 1 Hfits) by lia.
    exact Hlog. }
  split; [|split; [|split; [|split]]].
  - intros fn answer req N. apply Htrace.
  - intros fn answer req N. apply Htrace.
  - intros k Hk. apply backoffDelay_exact; [lia | apply Hfits; assumption].
  - intros fn answer req out w' evs k d Hfn Hrun Hlog Hin.
    destruct (retryLoop_selects _ _ _ _ _ _ _ _ _ _ _ _ Hfn Hfits Hrun Hlog Hin).
    split; [lia | assumption].
  - intros fn answer req out w' evs k d Hfn Hrun Hlog Hin.
    destruct (retryLoop_selects _ _ _ _ _ _ _ _ _ _ _ _ Hfn Hfits Hrun Hlog Hin).
    split; [lia | assumption].
Qed.

(** The configuration every provider is built with fits. *)
Lemma defaultRetryConfig_fits : backoffFits defaultRetryConfig.
Proof.
  intros k Hk. simpl in Hk.
  assert (Hcases : k = 1 \/ k = 2 \/ k = 3) by lia.
  destruct Hcases as [-> | [-> | ->]]; vm_compute; split; discriminate.
Qed.

(** Three timeouts and then an answer, under the default configuration:
    the three retries, after waits of one, two and four seconds. *)
Lemma backoff_is_exponential_witness :
  let req := mkRequest "gemini-1.5-flash" "hello" None in
  let o := stub 3 errTimeout ("ok"%string, None) None in
  exists out w' rest,
    withRetry readyProvider (genkitGenerateText req) (newWorld o) = (out, w')
    /\ log w' = log (newWorld o)
                 ++ EvGenerate req
                    :: backoffRounds (retryConfig readyProvider) req 1 3 ++ rest.
Proof.
  intros req o.
  apply (proj1 (backoff_is_exponential readyProvider (newWorld o) defaultRetryConfig_fits)
           (genkitGenerateText req) (fun o n => genkit_GenerateText o n req) req 3%nat).
  - apply genkitGenerateText_invokes.
  - vm_compute. split; discriminate.
  - intros i Hi. reflexivity.
  - apply stub_failsTransiently.
Defined.

Example backoff_trace :
  let req := mkRequest "gemini-1.5-flash" "hello" None in
  log (snd (withRetry readyProvider (genkitGenerateText req)
              (newWorld (stub 3 errTimeout ("ok"%string, None) None))))
  = [ EvGenerate req; EvTimerFired 1 (1 * second);
      EvGenerate req; EvTimerFired 2 (2 * second);
      EvGenerate req; EvTimerFired 3 (4 * second);
      EvGenerate req ].
Proof. reflexivity. Qed.

(** Where the product leaves the 64-bit range the delay is not the
    spec's: with [BaseDelay] one second, retry 35 waits a negative time. *)
Example backoffDelay_wraps :
  backoffDelay (mkRetryConfig 40 second (30 * second)) 35 = -1266874889709551616.
Proof. reflexivity. Qed.

(** ** Exhaustion (C6) *)

Lemma append_assoc (s1 s2 s3 : string) :
  ((s1 +:+ s2) +:+ s3 = s1 +:+ (s2 +:+ s3))%string.
Proof.
  induction s1 as [|c s1 IH]; [reflexivity|].
  change (String c ((s1 +:+ s2) +:+ s3) = String c (s1 +:+ (s2 +:+ s3))).
  f_equal. exact IH.
Qed.

Lemma retryLoop_exhausted_wraps {A : Type} (zero : A) what rc fn answer req w :
  invokes fn answer req ->
  0 <= MaxRetries rc < Int64.max_int ->
  neverDone (oracle w) ->
  failsTransiently (answer (oracle w)) (calls w) (Z.to_nat (MaxRetries rc + 1)) ->
  exists r e err w',
    answer (oracle w) (calls w + Z.to_nat (MaxRetries rc))%nat = (r, Some e)
    /\ retryLoop zero what rc fn w = (Return zero (Some err), w')
    /\ attempts (log w') = (attempts (log w) + Z.to_nat (MaxRetries rc + 1))%nat
    /\ Unwrap err = Some e
    /\ Error err
       = (what +:+ " failed after " +:+ Itoa (MaxRetries rc + 1) +:+ " attempts: "
          +:+ Error e)%string.
Proof.
  intros Hfn Hrange Hnever Hfail.
  destruct (retryLoop_exhausted zero what rc fn answer req Hfn w)
    as (lastErr & w' & Hrun & Hat & Hlast); try assumption; try lia.
  replace (Z.to_nat (MaxRetries rc + 1)) with (S (Z.to_nat (MaxRetries rc))) in Hlast by lia.
  destruct Hlast as (r & e & Hans & ->).
  assert (Hadd : Int64.add (MaxRetries rc) 1 = MaxRetries rc + 1)
    by (apply add_MaxRetries; unfold Int64.min_int; lia).
  exists r, e, (Errorf_failed_after what (MaxRetries rc + 1) (Some e)), w'.
  split; [assumption|]. split; [rewrite Hrun; unfold exhausted; rewrite Hadd; reflexivity|].
  split; [assumption|]. split; [reflexivity|].
  unfold Errorf_failed_after, Error. rewrite !append_assoc. reflexivity.
Qed.

(** C6: when every one of the [MaxRetries + 1] attempts fails transiently,
    [withRetry] and [withRetryStructured] return one error; it wraps the
    error of the last attempt, and its text gives the number of attempts,
    [MaxRetries + 1], before the text of that error. *)
Theorem exhaustion_wraps_last_error p w :
  0 <= MaxRetries (retryConfig p) < Int64.max_int ->
  neverDone (oracle w) ->
  (forall fn answer req,
     invokes fn answer req ->
     failsTransiently (answer (oracle w)) (calls w)
       (Z.to_nat (MaxRetries (retryConfig p) + 1)) ->
     exists r e err w',
       answer (oracle w) (calls w + Z.to_nat (MaxRetries (retryConfig p)))%nat
       = (r, Some e)
       /\ withRetry p fn w = (Return ""%string (Some err), w')
       /\ attempts (log w')
          = (attempts (log w) + Z.to_nat (MaxRetries (retryConfig p) + 1))%nat
       /\ Unwrap err = Some e
       /\ Error err
          = ("google AI request failed after "
             +:+ Itoa (MaxRetries (retryConfig p) + 1) +:+ " attempts: "
             +:+ Error e)%string)
  /\ (forall fn answer req,
     invokes fn answer req ->
     failsTransiently (answer (oracle w)) (calls w)
       (Z.to_nat (MaxRetries (retryConfig p) + 1)) ->
     exists r e err w',
       answer (oracle w) (calls w + Z.to_nat (MaxRetries (retryConfig p)))%nat
       = (r, Some e)
       /\ withRetryStructured p fn w = (Return None (Some err), w')
       /\ attempts (log w')
          = (attempts (log w) + Z.to_nat (MaxRetries (retryConfig p) + 1))%nat
       /\ Unwrap err = Some e
       /\ Error err
          = ("google AI structured request failed after "
             +:+ Itoa (MaxRetries (retryConfig p) + 1) +:+ " attempts: "
             +:+ Error e)%string).
Proof.
  intros Hrange Hnever. split; intros fn answer req Hfn Hfail.
  - apply (retryLoop_exhausted_wraps ""%string "google AI request"
             (retryConfig p) fn answer req w Hfn Hrange Hnever Hfail).
  - apply (retryLoop_exhausted_wraps None "google AI structured request"
             (retryConfig p) fn answer req w Hfn Hrange Hnever Hfail).
Qed.

Lemma exhaustion_wraps_last_error_witness :
  let req := mkRequest "gemini-1.5-flash" "hello" None in
  let o := stub 9 errTimeout ("ok"%string, None) None in
  exists r e err w',
    genkit_GenerateText o (0 + Z.to_nat 3)%nat req = (r, Some e)
    /\ withRetry readyProvider (genkitGenerateText req) (newWorld o)
       = (Return ""%string (Some err), w')
    /\ attempts (log w') = (0 + Z.to_nat (3 + 1))%nat
    /\ Unwrap err = Some e
    /\ Error err
       = ("google AI request failed after " +:+ Itoa (3 + 1) +:+ " attempts: "
          +:+ Error e)%string.
Proof.
  intros req o.
  apply (proj1 (exhaustion_wraps_last_error readyProvider (newWorld o)
                  ltac:(vm_compute; split; [discriminate | reflexivity])
                  ltac:(intros k; reflexivity))
           (genkitGenerateText req) (fun o n => genkit_GenerateText o n req) req).
  - apply genkitGenerateText_invokes.
  - intros i Hi. exists ""%string, errTimeout. simpl in *.
    destruct (Nat.ltb_spec i 9); [split; reflexivity | lia].
Defined.

Example exhaustion_text :
  snd (fst (GenerateText "hello" readyProvider
              (newWorld (stub 9 errTimeout ("ok"%string, None) None))))
  = Return ""%string
      (Some (wrapError "google AI request failed after 4 attempts: request timeout"
                       errTimeout)).
Proof. reflexivity. Qed.

(** ** Cancellation (C7) *)

Lemma retryLoop_cancelled {A : Type} (zero : A) what rc fn answer req
    w out w' before k d ce after :
  invokes fn answer req ->
  retryLoop zero what rc fn w = (out, w') ->
  log w' = log w ++ before ++ EvCtxDone k d ce :: after ->
  out = Return zero (Some ce) /\ after = [].
Proof.
  intros Hfn Hrun Hlog. unfold retryLoop in Hrun.
  destruct (retryFrom_log zero what rc fn answer req Hfn _ _ _ _ _ _ Hrun)
    as [_ (evs & Hlog' & _ & _ & Hend)].
  rewrite Hlog in Hlog'. apply app_inv_head in Hlog'. subst evs.
  destruct (wellEnded_split zero _ _ _ _ _ _ Hend). auto.
Qed.

(** C7: when the context is done (cancelled, or past its deadline) while
    the loop waits out the backoff before retry [j + 1], the loop having
    made [j + 1] attempts that failed transiently, [withRetry] and
    [withRetryStructured] return the context's error as it is; the [j + 1]
    attempts made before are all there are, and the lost select is the
    last thing the call does. In any run at all, a select the context
    wins is the last event, and its error is what the call returns. *)
Theorem cancellation_ends_the_call p w :
  (forall fn answer req j ce,
     invokes fn answer req ->
     Z.of_nat (S j) <= MaxRetries (retryConfig p) <= Int64.max_int ->
     failsTransiently (answer (oracle w)) (calls w) (S j) ->
     waitsThrough (oracle w) (selects w) j ->
     ctx_Done (oracle w) (selects w + j)%nat = Some ce ->
     exists w' before d,
       withRetry p fn w = (Return ""%string (Some ce), w')
       /\ log w' = log w ++ before ++ [EvCtxDone (Z.of_nat (S j)) d ce]
       /\ attempts before = S j
       /\ calls w' = (calls w + S j)%nat)
  /\ (forall fn answer req j ce,
     invokes fn answer req ->
     Z.of_nat (S j) <= MaxRetries (retryConfig p) <= Int64.max_int ->
     failsTransiently (answer (oracle w)) (calls w) (S j) ->
     waitsThrough (oracle w) (selects w) j ->
     ctx_Done (oracle w) (selects w + j)%nat = Some ce ->
     exists w' before d,
       withRetryStructured p fn w = (Return None (Some ce), w')
       /\ log w' = log w ++ before ++ [EvCtxDone (Z.of_nat (S j)) d ce]
       /\ attempts before = S j
       /\ calls w' = (calls w + S j)%nat)
  /\ (forall fn answer req out w' before k d ce after,
     invokes fn answer req ->
     withRetry p fn w = (out, w') ->
     log w' = log w ++ before ++ EvCtxDone k d ce :: after ->
     out = Return ""%string (Some ce) /\ after = [])
  /\ (forall fn answer req out w' before k d ce after,
     invokes fn answer req ->
     withRetryStructured p fn w = (out, w') ->
     log w' = log w ++ before ++ EvCtxDone k d ce :: after ->
     out = Return None (Some ce) /\ after = []).
Proof.
  assert (Hcut : forall (A : Type) (zero : A) what fn answer req j ce,
            invokes fn answer req ->
            Z.of_nat (S j) <= MaxRetries (retryConfig p) <= Int64.max_int ->
            failsTransiently (answer (oracle w)) (calls w) (S j) ->
            waitsThrough (oracle w) (selects w) j ->
            ctx_Done (oracle w) (selects w + j)%nat = Some ce ->
            exists w' before d,
              retryLoop zero what (retryConfig p) fn w = (Return zero (Some ce), w')
              /\ log w' = log w ++ before ++ [EvCtxDone (Z.of_nat (S j)) d ce]
              /\ attempts before = S j
              /\ calls w' = (calls w + S j)%nat).
  { intros A zero what fn answer req j ce Hfn HN Hfail Hwait Hdone.
    destruct (retryLoop_interrupted zero what (retryConfig p) fn answer req Hfn
                j ce w HN Hfail Hwait Hdone) as (w' & Hrun & Hc & Hl).
    exists w', (EvGenerate req :: retryRounds (retryConfig p) req 1 j),
      (backoffDelay (retryConfig p) (Z.of_nat (S j))).
    split; [assumption|]. split; [assumption|]. split; [|assumption].
    rewrite attempts_generate, attempts_retryRounds. reflexivity. }
  split; [|split; [|split]].
  - intros fn answer req j ce. apply Hcut.
  - intros fn answer req j ce. apply Hcut.
  - intros fn answer req out w' before k d ce after Hfn Hrun Hlog.
    apply (retryLoop_cancelled ""%string _ _ _ _ _ _ _ _ _ _ _ _ _ Hfn Hrun Hlog).
  - intros fn answer req out w' before k d ce after Hfn Hrun Hlog.
    apply (retryLoop_cancelled None _ _ _ _ _ _ _ _ _ _ _ _ _ Hfn Hrun Hlog).
Qed.

(** Timeouts throughout, and a context cancelled while the loop waits
    before its second retry: two attempts, then the context's error. *)
Lemma cancellation_ends_the_call_witness :
  let req := mkRequest "gemini-1.5-flash" "hello" None in
  let o := stub 9 errTimeout ("ok"%string, None) (Some 1%nat) in
  exists w' before d,
    withRetry readyProvider (genkitGenerateText req) (newWorld o)
    = (Return ""%string (Some Canceled), w')
    /\ log w' = log (newWorld o) ++ before ++ [EvCtxDone (Z.of_nat 2) d Canceled]
    /\ attempts before = 2%nat
    /\ calls w' = (calls (newWorld o) + 2)%nat.
Proof.
  intros req o.
  apply (proj1 (cancellation_ends_the_call readyProvider (newWorld o))
           (genkitGenerateText req) (fun o n => genkit_GenerateText o n req) req
           1%nat Canceled).
  - apply genkitGenerateText_invokes.
  - vm_compute. split; discriminate.
  - intros i Hi. exists ""%string, errTimeout. simpl in *.
    destruct (Nat.ltb_spec i 9); [split; reflexivity | lia].
  - intros i Hi. assert (i = 0%nat) as -> by lia. reflexivity.
  - reflexivity.
Defined.

Example cancellation_trace :
  let req := mkRequest "gemini-1.5-flash" "hello" None in
  let run := withRetry readyProvider (genkitGenerateText req)
               (newWorld (stub 9 errTimeout ("ok"%string, None) (Some 1%nat))) in
  fst run = Return ""%string (Some Canceled)
  /\ log (snd run)
     = [ EvGenerate req; EvTimerFired 1 (1 * second);
         EvGenerate req; EvCtxDone 2 (2 * second) Canceled ].
Proof. split; reflexivity. Qed.

(** ** Structured calls (C4) *)

(** C4, as the code has it: a structured-output call runs the common retry
    loop and nothing more. Every invocation it makes asks the caller's
    prompt and output type, unchanged; a reply without error is returned
    as it is after that one invocation; a reply with an error that is not
    transient is returned, wrapped, after that one invocation. A call
    without an output type (nil) asks for no schema: it panics while it
    builds its options, before any invocation. *)
Theorem structured_call_is_plain_retry p prompt outputType w p' out w' :
  initialized p = true ->
  0 <= MaxRetries (retryConfig p) ->
  GenerateWithStructuredOutput prompt outputType p w = ((p', out), w') ->
  let req := mkRequest (GetModel p) prompt (Some outputType) in
  p' = p
  /\ exists evs,
       log w' = log w ++ evs
       /\ (forall r, In (EvGenerate r) evs -> r = req)
       /\ (outputType = AnyNil -> evs = [] /\ exists msg, out = Panic msg)
       /\ (outputType <> AnyNil ->
           forall resp,
             genkit_Generate (oracle w) (calls w) req = (resp, None) ->
             attempts evs = 1%nat /\ out = Return resp None)
       /\ (outputType <> AnyNil ->
           forall resp e,
             genkit_Generate (oracle w) (calls w) req = (resp, Some e) ->
             isRetryable (Some e) = false ->
             attempts evs = 1%nat
             /\ out = Return None
                        (Some (Errorf_failed_after "google AI structured request"
                                 (Int64.add (MaxRetries (retryConfig p)) 1) (Some e)))).
Proof.
  intros Hinit Hmax Hrun req.
  unfold GenerateWithStructuredOutput in Hrun. rewrite Hinit in Hrun. simpl in Hrun.
  destruct (Z.leb_spec 0 (MaxRetries (retryConfig p))) as [_|]; [|lia].
  rewrite andb_true_r in Hrun.
  destruct (isNil outputType) eqn:Hnil.
  { inversion Hrun; subst p' out w'. split; [reflexivity|].
    exists []. rewrite app_nil_r. split; [reflexivity|].
    split; [intros r []|]. split; [eauto|].
    split; intros Hne; destruct outputType; try discriminate Hnil; contradiction. }
  unfold bind, withRetryStructured in Hrun. fold req in Hrun.
  destruct (retryLoop None "google AI structured request" (retryConfig p)
              (genkitGenerate req) w) as [out0 w0] eqn:Hloop.
  inversion Hrun; subst p' out0 w0. split; [reflexivity|].
  pose proof (genkitGenerate_invokes req) as Hfn.
  pose proof Hloop as Hlog. unfold retryLoop in Hlog.
  apply (retryFrom_log None _ _ _ _ _ Hfn) in Hlog.
  destruct Hlog as [_ (evs & Hlog & _ & Hall & _)].
  exists evs. split; [assumption|]. split.
  { intros r Hin. rewrite List.Forall_forall in Hall. apply (Hall _ Hin). }
  split.
  { intros ->. discriminate Hnil. }
  unfold retryLoop in Hloop.
  rewrite (retryFrom_first None _ _ _ _ _ Hfn) in Hloop by lia.
  split; intros _.
  - intros resp Hans.
    rewrite (attemptOnce_success None _ _ _ _ _ _ _ _ _ Hans) in Hloop.
    inversion Hloop; subst out w'. simpl in Hlog.
    apply app_inv_head in Hlog. subst evs. split; reflexivity.
  - intros resp e Hans Hfatal.
    rewrite (attemptOnce_fatal None _ _ _ _ _ _ _ _ _ _ Hans Hfatal) in Hloop.
    inversion Hloop; subst out w'. simpl in Hlog.
    apply app_inv_head in Hlog. subst evs. split; reflexivity.
Qed.

Lemma structured_call_is_plain_retry_witness :
  let o := stub 0 errTimeout (""%string, Some errSchema) None in
  let run := GenerateWithStructuredOutput "extract" (AnyString "Entities")
               readyProvider (newWorld o) in
  let req := mkRequest (GetModel readyProvider) "extract" (Some (AnyString "Entities")) in
  fst (fst run) = readyProvider
  /\ exists evs,
       log (snd run) = log (newWorld o) ++ evs
       /\ (forall r, In (EvGenerate r) evs -> r = req)
       /\ (AnyString "Entities" = AnyNil -> evs = [] /\ exists msg, snd (fst run) = Panic msg)
       /\ (AnyString "Entities" <> AnyNil ->
           forall resp,
             genkit_Generate o 0 req = (resp, None) ->
             attempts evs = 1%nat /\ snd (fst run) = Return resp None)
       /\ (AnyString "Entities" <> AnyNil ->
           forall resp e,
             genkit_Generate o 0 req = (resp, Some e) ->
             isRetryable (Some e) = false ->
             attempts evs = 1%nat
             /\ snd (fst run)
                = Return None
                    (Some (Errorf_failed_after "google AI structured request"
                             (Int64.add (MaxRetries (retryConfig readyProvider)) 1)
                             (Some e)))).
Proof.
  intros o run req.
  apply (structured_call_is_plain_retry readyProvider "extract" (AnyString "Entities")
           (newWorld o) (fst (fst run)) (snd (fst run)) (snd run)).
  - reflexivity.
  - simpl. lia.
  - reflexivity.
Defined.

(** A call without an output type: the panic, and no invocation. *)
Example structured_call_without_type :
  let run := GenerateWithStructuredOutput "extract" AnyNil readyProvider
               (newWorld (stub 0 errTimeout ("ok"%string, None) None)) in
  snd (fst run) = Panic "invalid memory address or nil pointer dereference"
  /\ log (snd run) = [].
Proof. split; reflexivity. Qed.

(** The spec asks for exactly one retry, with reinforced instructions,
    before a structurally invalid result is surfaced. Whether the invalid
    output reaches the provider as genkit's schema error or as a reply
    without error, one invocation is made, with the caller's prompt: the
    error is surfaced at once, the reply is returned as a success. *)
Lemma structured_retry_counterexample :
  let req := mkRequest "gemini-1.5-flash" "extract" (Some (AnyString "Entities")) in
  let refused :=
    GenerateWithStructuredOutput "extract" (AnyString "Entities") readyProvider
      (newWorld (stub 0 errTimeout (""%string, Some errSchema) None)) in
  let accepted :=
    GenerateWithStructuredOutput "extract" (AnyString "Entities") readyProvider
      (newWorld (stub 0 errTimeout ("not even JSON"%string, None) None)) in
  log (snd refused) = [EvGenerate req]
  /\ attempts (log (snd refused)) <> 2%nat
  /\ snd (fst refused)
     = Return None
         (Some (wrapError
                  ("google AI structured request failed after 4 attempts: "
                   +:+ Error errSchema) errSchema))
  /\ log (snd accepted) = [EvGenerate req]
  /\ snd (fst accepted) = Return (Some (mkModelResponse "not even JSON")) None.
Proof.
  intros req refused accepted.
  split; [reflexivity|]. split; [vm_compute; discriminate|].
  split; [reflexivity|]. split; reflexivity.
Qed.

(** ** The initialisation guard (C9) and availability (C10) *)

Lemma GenerateText_uninitialized prompt p w :
  initialized p = false ->
  GenerateText prompt p w = ((p, Return ""%string (Some errNotInitialized)), w).
Proof. intros H. unfold GenerateText. rewrite H. reflexivity. Qed.

Lemma GenerateWithStructuredOutput_uninitialized prompt outputType p w :
  initialized p = false ->
  GenerateWithStructuredOutput prompt outputType p w
  = ((p, Return None (Some errNotInitialized)), w).
Proof. intros H. unfold GenerateWithStructuredOutput. rewrite H. reflexivity. Qed.

Lemma CallTool_uninitialized toolName params p w :
  initialized p = false ->
  CallTool toolName params p w = ((p, Return None (Some errNotInitialized)), w).
Proof. intros H. unfold CallTool. rewrite H. reflexivity. Qed.

(** The generation methods hand back the provider they were called on. *)
Lemma GenerateText_provider prompt p w : fst (fst (GenerateText prompt p w)) = p.
Proof.
  unfold GenerateText. destruct (initialized p); simpl; [|reflexivity].
  unfold bind. destruct (withRetry p _ w). reflexivity.
Qed.

Lemma GenerateWithStructuredOutput_provider prompt outputType p w :
  fst (fst (GenerateWithStructuredOutput prompt outputType p w)) = p.
Proof.
  unfold GenerateWithStructuredOutput. destruct (initialized p); simpl; [|reflexivity].
  destruct (isNil outputType && (0 <=? MaxRetries (retryConfig p))); [reflexivity|].
  unfold bind. destruct (withRetryStructured p _ w). reflexivity.
Qed.

Lemma GenerateStream_provider prompt p w : fst (fst (GenerateStream prompt p w)) = p.
Proof. unfold GenerateStream. destruct (initialized p); reflexivity. Qed.

Lemma CallTool_provider toolName params p w :
  fst (fst (CallTool toolName params p w)) = p.
Proof.
  unfold CallTool. destruct (initialized p); simpl; [|reflexivity].
  destruct (String.eqb toolName ""); [reflexivity|].
  unfold bind, fmtParams, timeSince.
  destruct (withRetry p _ w) as [[response [err|] | msg | ] w1]; reflexivity.
Qed.

(** What [Initialize] does to the provider. *)
Lemma Initialize_spec cfg p w p' err w' :
  Initialize cfg p w = ((p', err), w') ->
  retryConfig p' = retryConfig p
  /\ match err with
     | None => initialized p' = true /\ APIKey (config p') <> ""%string
     | Some _ =>
         initialized p' = initialized p
         /\ (p' = p \/ APIKey (config p') <> ""%string)
     end.
Proof.
  unfold Initialize.
  destruct (parseConfig cfg (mkConfig "" "")) as [gc perr] eqn:Hparse.
  assert (perr = None) by (unfold parseConfig in Hparse; inversion Hparse; reflexivity).
  subst perr.
  destruct (String.eqb_spec (APIKey gc) "") as [Hempty|Hkey].
  - intros H. inversion H; subst. auto.
  - assert (Hkey' : APIKey (if String.eqb (DefaultModel gc) ""
                            then mkConfig (APIKey gc) "gemini-1.5-flash" else gc)
                    <> ""%string)
      by (destruct (String.eqb (DefaultModel gc) ""); exact Hkey).
    unfold bind, genkitInit, googleAIPluginInit, loggerInfo, ret.
    destruct (genkit_Init (oracle w) (inits w)) as [genkitInstance [ierr|]].
    + intros H. inversion H; subst. simpl. auto.
    + simpl. destruct (googleAI_Init (oracle w) (inits w) _) as [perr|];
        intros H; inversion H; subst; simpl; auto.
Qed.

Lemma Initialize_without_key cfg p w :
  cfg !! "api_key"%string = None \/ cfg !! "api_key"%string = Some (AnyString "") ->
  Initialize cfg p w
  = ((p, Some (eh_New (errorHandler p) "Google AI API key is required"
                 {[ "config"%string := AnyMap cfg ]})), w).
Proof.
  intros Hkey. unfold Initialize, parseConfig.
  destruct Hkey as [-> | ->];
    destruct (cfg !! "default_model"%string) as [[| | | |]|]; reflexivity.
Qed.

Lemma IsAvailable_keyed p : keyed p -> IsAvailable p = initialized p.
Proof.
  unfold keyed, IsAvailable. intros Hk.
  destruct (initialized p); [|apply andb_false_r].
  destruct (String.eqb_spec (APIKey (config p)) ""); [|reflexivity].
  exfalso. apply Hk; auto.
Qed.

Lemma perform_spec c p w p' ok w' :
  perform c p w = ((p', ok), w') ->
  keyed p ->
  keyed p' /\ initialized p' = initialized p || ok.
Proof.
  intros Hrun Hk. destruct c; simpl in Hrun; unfold bind in Hrun.
  - destruct (Initialize config0 p w) as [[p1 err] w1] eqn:Hinit.
    apply Initialize_spec in Hinit. destruct Hinit as [_ Hinit].
    inversion Hrun; subst p1 ok w1.
    destruct err as [e|].
    + destruct Hinit as [Hi [-> | Hkey]].
      * split; [assumption | rewrite orb_false_r; reflexivity].
      * split; [intros _; assumption | rewrite orb_false_r; assumption].
    + destruct Hinit as [Hi Hkey].
      split; [intros _; assumption | rewrite Hi, orb_true_r; reflexivity].
  - pose proof (GenerateText_provider prompt p w) as Hp.
    destruct (GenerateText prompt p w) as [[p1 out] w1]. simpl in Hp.
    inversion Hrun; subst. split; [assumption | rewrite orb_false_r; reflexivity].
  - pose proof (GenerateWithStructuredOutput_provider prompt outputType p w) as Hp.
    destruct (GenerateWithStructuredOutput prompt outputType p w) as [[p1 out] w1].
    simpl in Hp.
    inversion Hrun; subst. split; [assumption | rewrite orb_false_r; reflexivity].
  - pose proof (GenerateStream_provider prompt p w) as Hp.
    destruct (GenerateStream prompt p w) as [[p1 out] w1]. simpl in Hp.
    inversion Hrun; subst. split; [assumption | rewrite orb_false_r; reflexivity].
  - pose proof (CallTool_provider toolName params p w) as Hp.
    destruct (CallTool toolName params p w) as [[p1 out] w1]. simpl in Hp.
    inversion Hrun; subst. split; [assumption | rewrite orb_false_r; reflexivity].
Qed.

Lemma performAll_spec cs : forall p succeeded w p' succeeded' w',
  performAll cs p succeeded w = ((p', succeeded'), w') ->
  keyed p -> initialized p = succeeded ->
  keyed p' /\ initialized p' = succeeded'.
Proof.
  induction cs as [|c cs IH]; intros p succeeded w p' succeeded' w' Hrun Hk Hi.
  - inversion Hrun; subst. auto.
  - simpl in Hrun. unfold bind in Hrun.
    destruct (perform c p w) as [[p1 ok] w1] eqn:Hone.
    destruct (perform_spec _ _ _ _ _ _ Hone Hk) as [Hk1 Hi1].
    apply (IH _ _ _ _ _ _ Hrun Hk1). rewrite Hi1, Hi. reflexivity.
Qed.

Lemma NewGoogleAIProvider_keyed eh : keyed (NewGoogleAIProvider eh).
Proof. intros H. discriminate H. Qed.

(** C9: as long as no [Initialize] of the provider's history has returned
    nil, [GenerateText], [GenerateWithStructuredOutput] and [CallTool]
    return the error "provider not initialized"; the world they return is
    the world they were called in (no model invocation, nothing logged)
    and the provider is the provider they were called on. *)
Theorem uninitialized_calls_are_refused eh cs w p w1 :
  performAll cs (NewGoogleAIProvider eh) false w = ((p, false), w1) ->
  Error errNotInitialized = "provider not initialized"%string
  /\ (forall prompt w',
        GenerateText prompt p w'
        = ((p, Return ""%string (Some errNotInitialized)), w'))
  /\ (forall prompt outputType w',
        GenerateWithStructuredOutput prompt outputType p w'
        = ((p, Return None (Some errNotInitialized)), w'))
  /\ (forall toolName params w',
        CallTool toolName params p w'
        = ((p, Return None (Some errNotInitialized)), w')).
Proof.
  intros Hrun.
  destruct (performAll_spec _ _ _ _ _ _ _ Hrun (NewGoogleAIProvider_keyed eh) eq_refl)
    as [_ Hinit].
  split; [reflexivity|]. split; [|split]; intros.
  - apply GenerateText_uninitialized, Hinit.
  - apply GenerateWithStructuredOutput_uninitialized, Hinit.
  - apply CallTool_uninitialized, Hinit.
Qed.

(** C10: after any history of calls on a new provider, [IsAvailable]
    answers true exactly when some [Initialize] of the history returned
    nil; and [Initialize] with a configuration whose ["api_key"] is
    missing or empty returns an error and changes neither the provider
    nor the world, so a provider that was not available stays so. *)
Theorem availability_follows_initialize eh :
  (forall cs w p succeeded w',
     performAll cs (NewGoogleAIProvider eh) false w = ((p, succeeded), w') ->
     IsAvailable p = succeeded)
  /\ (forall cfg p w,
       cfg !! "api_key"%string = None
       \/ cfg !! "api_key"%string = Some (AnyString "") ->
       exists e,
         Initialize cfg p w = ((p, Some e), w)
         /\ (initialized p = false -> IsAvailable p = false)).
Proof.
  split.
  - intros cs w p succeeded w' Hrun.
    destruct (performAll_spec _ _ _ _ _ _ _ Hrun (NewGoogleAIProvider_keyed eh) eq_refl)
      as [Hk Hinit].
    rewrite IsAvailable_keyed; assumption.
  - intros cfg p w Hkey. eexists. split.
    + apply Initialize_without_key. assumption.
    + intros Hi. unfold IsAvailable. rewrite Hi. apply andb_false_r.
Qed.

Lemma uninitialized_calls_are_refused_witness :
  let o := stub 0 errTimeout ("ok"%string, None) None in
  let p := NewGoogleAIProvider plainHandler in
  performAll [DoInitialize ∅; DoGenerateText "hi"] p false (newWorld o)
  = ((p, false), newWorld o)
  /\ GenerateText "hi" p (newWorld o)
     = ((p, Return ""%string (Some errNotInitialized)), newWorld o).
Proof.
  intros o p.
  assert (Hrun : performAll [DoInitialize ∅; DoGenerateText "hi"] p false (newWorld o)
                 = ((p, false), newWorld o)) by reflexivity.
  split; [exact Hrun|].
  apply (proj1 (proj2 (uninitialized_calls_are_refused plainHandler _ _ _ _ Hrun))).
Defined.

Lemma availability_follows_initialize_witness :
  let o := stub 0 errTimeout ("ok"%string, None) None in
  let p := NewGoogleAIProvider plainHandler in
  let cfg : gmap string any := {[ "default_model"%string := AnyString "gemini-2.0-flash" ]} in
  cfg !! "api_key"%string = None
  /\ exists e,
       Initialize cfg p (newWorld o) = ((p, Some e), newWorld o)
       /\ (initialized p = false -> IsAvailable p = false).
Proof.
  intros o p cfg.
  assert (Hkey : cfg !! "api_key"%string = None) by reflexivity.
  split; [exact Hkey|].
  apply (proj2 (availability_follows_initialize plainHandler) cfg p (newWorld o)
           (or_introl Hkey)).
Defined.

Example initialize_makes_available :
  let o := stub 0 errTimeout ("ok"%string, None) None in
  let run := performAll [DoInitialize {[ "api_key"%string := AnyString "secret" ]}]
               (NewGoogleAIProvider plainHandler) false (newWorld o) in
  snd (fst run) = true
  /\ IsAvailable (fst (fst run)) = true
  /\ GetModel (fst (fst run)) = "gemini-1.5-flash"%string
  /\ log (snd run) = [EvLogInfo "Google AI provider initialized successfully"].
Proof. vm_compute. repeat split. Qed.

(** ** The fallback (C5) *)

Lemma fallbackCalls_app l1 l2 :
  fallbackCalls (l1 ++ l2) = (fallbackCalls l1 + fallbackCalls l2)%nat.
Proof. unfold fallbackCalls. rewrite List.filter_app, List.length_app. reflexivity. Qed.

Lemma roundEvents_no_fallback rc req evs :
  Forall (roundEvent rc req) evs -> fallbackCalls evs = 0%nat.
Proof.
  induction 1 as [|ev evs Hev _ IH]; [reflexivity|].
  change (ev :: evs) with ([ev] ++ evs). rewrite fallbackCalls_app, IH.
  destruct ev; simpl in Hev; try contradiction; reflexivity.
Qed.

Lemma GenerateText_fallbackCalls prompt p w :
  fallbackCalls (log (snd (GenerateText prompt p w))) = fallbackCalls (log w).
Proof.
  unfold GenerateText. destruct (initialized p); simpl; [|reflexivity].
  unfold bind, withRetry, retryLoop.
  destruct (retryFrom _ _ _ _ _ _ _ w) as [out w'] eqn:Hrun. simpl.
  apply (retryFrom_log ""%string _ _ _ _ _ (genkitGenerateText_invokes _)) in Hrun.
  destruct Hrun as [_ (evs & Hlog & _ & Hall & _)].
  rewrite Hlog, fallbackCalls_app, (roundEvents_no_fallback _ _ _ Hall). lia.
Qed.

(** A call whose every invocation fails transiently spends the whole
    budget and returns the error that shows it. *)
Lemma GenerateText_exhausts prompt q w :
  initialized q = true ->
  0 <= MaxRetries (retryConfig q) < Int64.max_int ->
  neverDone (oracle w) ->
  failsTransiently
    (fun n => genkit_GenerateText (oracle w) n (mkRequest (GetModel q) prompt None))
    (calls w) (Z.to_nat (MaxRetries (retryConfig q) + 1)) ->
  exists e err w',
    GenerateText prompt q w = ((q, Return ""%string (Some err)), w')
    /\ Unwrap err = Some e
    /\ retriesSpent err = true
    /\ oracle w' = oracle w
    /\ calls w' = (calls w + Z.to_nat (MaxRetries (retryConfig q) + 1))%nat
    /\ attempts (log w')
       = (attempts (log w) + Z.to_nat (MaxRetries (retryConfig q) + 1))%nat
    /\ fallbackCalls (log w') = fallbackCalls (log w).
Proof.
  intros Hinit Hrange Hnever Hfail.
  set (req := mkRequest (GetModel q) prompt None) in *.
  pose proof (genkitGenerateText_invokes req) as Hfn.
  destruct (retryLoop_exhausted ""%string "google AI request" (retryConfig q)
              (genkitGenerateText req) _ req Hfn w)
    as (lastErr & w' & Hrun & Hat & Hlast); try assumption; try lia.
  replace (Z.to_nat (MaxRetries (retryConfig q) + 1))
    with (S (Z.to_nat (MaxRetries (retryConfig q)))) in Hlast by lia.
  destruct Hlast as (r & e & Hans & ->).
  destruct (Hfail (Z.to_nat (MaxRetries (retryConfig q))) ltac:(lia))
    as (r' & e' & Hans' & Hretry).
  rewrite Hans in Hans'. inversion Hans'; subst r' e'.
  pose proof Hrun as Hlog. unfold retryLoop in Hlog.
  apply (retryFrom_log ""%string _ _ _ _ _ Hfn) in Hlog.
  destruct Hlog as [Ho (evs & Hl & Hc & Hall & _)].
  exists e, (Errorf_failed_after "google AI request"
               (Int64.add (MaxRetries (retryConfig q)) 1) (Some e)), w'.
  split.
  { unfold GenerateText. rewrite Hinit. simpl. unfold bind, withRetry.
    fold req. rewrite Hrun. reflexivity. }
  split; [reflexivity|]. split; [exact Hretry|]. split; [assumption|].
  rewrite Hl, attempts_app in Hat.
  split; [lia|]. split; [rewrite Hl, attempts_app; lia|].
  rewrite Hl, fallbackCalls_app, (roundEvents_no_fallback _ _ _ Hall). lia.
Qed.

(** A call whose first invocation answers makes that one invocation. *)
Lemma GenerateText_answers prompt q w text :
  initialized q = true ->
  0 <= MaxRetries (retryConfig q) ->
  genkit_GenerateText (oracle w) (calls w) (mkRequest (GetModel q) prompt None)
  = (text, None) ->
  GenerateText prompt q w
  = ((q, Return text None),
     emit (EvGenerate (mkRequest (GetModel q) prompt None)) (bumpCalls w)).
Proof.
  intros Hinit Hmax Hans.
  set (req := mkRequest (GetModel q) prompt None) in *.
  pose proof (genkitGenerateText_invokes req) as Hfn.
  unfold GenerateText. rewrite Hinit. simpl. unfold bind, withRetry, retryLoop.
  fold req.
  rewrite (retryFrom_first ""%string _ _ _ _ _ Hfn) by lia.
  rewrite (attemptOnce_success ""%string _ _ _ _ _ _ _ _ _ Hans). reflexivity.
Qed.

(** What the primary's part of a call leaves behind, and that the call
    goes on as one call of the fallback from there. *)
Lemma manager_hands_over prompt (m : LegacyProviderManager GoogleAIProvider) w qf :
  fallback m <> ""%string ->
  providers m !! fallback m = Some qf ->
  primaryGivesUp prompt m w ->
  let w1 := afterPrimary prompt m w in
  let fb := GenerateText prompt qf (emit (EvFallback (fallback m)) w1) in
  oracle w1 = oracle w
  /\ calls w1 = (calls w + primaryAttempts m)%nat
  /\ attempts (log w1) = (attempts (log w) + primaryAttempts m)%nat
  /\ fallbackCalls (log w1) = fallbackCalls (log w)
  /\ snd (fst (managerGenerateText prompt m w)) = snd (fst fb)
  /\ snd (managerGenerateText prompt m w) = snd fb.
Proof.
  intros Hname Hreg Hgives w1 fb. subst fb w1.
  assert (Hstep : forall failure (m1 : LegacyProviderManager GoogleAIProvider) w0,
            fallback m1 = fallback m ->
            providers m1 !! fallback m = Some qf ->
            snd (fst (tryFallback prompt failure m1 w0))
            = snd (fst (GenerateText prompt qf (emit (EvFallback (fallback m)) w0)))
            /\ snd (tryFallback prompt failure m1 w0)
               = snd (GenerateText prompt qf (emit (EvFallback (fallback m)) w0))).
  { intros failure m1 w0 Hfb Hlook. unfold tryFallback. rewrite Hfb.
    destruct (String.eqb_spec (fallback m) ""); [contradiction|].
    rewrite Hlook. unfold callProvider.
    cbn [provider_GenerateText GoogleAIProvider_is_AIProvider].
    destruct (GenerateText prompt qf _) as [[q' out] w2]. split; reflexivity. }
  unfold managerGenerateText, primaryGivesUp, afterPrimary, primaryAttempts in *.
  destruct (providers m !! primary m) as [q0|] eqn:Hprim.
  - cbn [provider_IsAvailable GoogleAIProvider_is_AIProvider].
    destruct (IsAvailable q0) eqn:Hav.
    + destruct Hgives as [Hf | (_ & Hrange & Hnever & Hfail)]; [discriminate Hf|].
      assert (Hinit : initialized q0 = true).
      { unfold IsAvailable in Hav. apply andb_true_iff in Hav. apply Hav. }
      destruct (GenerateText_exhausts prompt q0 (emit (EvPrimary (primary m)) w)
                  Hinit Hrange Hnever Hfail)
        as (e & err & w' & Hrun & _ & Hspent & Ho & Hc & Hat & Hfc).
      unfold bind, callProvider.
      cbn [provider_GenerateText GoogleAIProvider_is_AIProvider].
      rewrite Hrun. cbn [snd]. rewrite Hspent.
      simpl in Ho, Hc, Hat, Hfc.
      rewrite attempts_app in Hat. rewrite fallbackCalls_app in Hfc.
      split; [assumption|]. split; [assumption|].
      split; [cbn in Hat; lia|]. split; [cbn in Hfc; lia|].
      apply Hstep; [reflexivity|]. simpl.
      destruct (decide (primary m = fallback m)) as [Heq|Hne].
      * rewrite <- Heq, lookup_insert_eq. rewrite Heq in Hprim. congruence.
      * rewrite lookup_insert_ne by assumption. assumption.
    + split; [reflexivity|]. split; [lia|]. split; [lia|]. split; [reflexivity|].
      apply Hstep; [reflexivity | assumption].
  - split; [reflexivity|]. split; [lia|]. split; [lia|]. split; [reflexivity|].
    apply Hstep; [reflexivity | assumption].
Qed.

(** C5: with a fallback configured and registered, a call whose primary
    is unavailable or exhausts its retries goes on as one call of the
    fallback, and ends with it. The primary has made no invocation, or
    its [MaxRetries + 1]; what the fallback's call returns and leaves
    behind, from there, is what the manager's call returns and leaves
    behind, so that nothing follows it. If the fallback's first
    invocation answers, that single invocation is all that is added and
    its text is the answer; if all the invocations of the fallback fail
    transiently, its budget is spent once and its failure is surfaced. *)
Theorem fallback_is_attempted_once prompt
    (m : LegacyProviderManager GoogleAIProvider) w qf :
  fallback m <> ""%string ->
  providers m !! fallback m = Some qf ->
  primaryGivesUp prompt m w ->
  let w1 := afterPrimary prompt m w in
  let req := mkRequest (GetModel qf) prompt None in
  let run := managerGenerateText prompt m w in
  (oracle w1 = oracle w
   /\ calls w1 = (calls w + primaryAttempts m)%nat
   /\ attempts (log w1) = (attempts (log w) + primaryAttempts m)%nat)
  /\ (snd (fst run)
      = snd (fst (GenerateText prompt qf (emit (EvFallback (fallback m)) w1)))
      /\ snd run = snd (GenerateText prompt qf (emit (EvFallback (fallback m)) w1)))
  /\ fallbackCalls (log (snd run)) = S (fallbackCalls (log w))
  /\ (initialized qf = true ->
      0 <= MaxRetries (retryConfig qf) ->
      forall text,
        genkit_GenerateText (oracle w) (calls w + primaryAttempts m)%nat req
        = (text, None) ->
        snd (fst run) = Return text None
        /\ log (snd run) = log w1 ++ [EvFallback (fallback m); EvGenerate req]
        /\ calls (snd run) = (calls w + primaryAttempts m + 1)%nat)
  /\ (initialized qf = true ->
      0 <= MaxRetries (retryConfig qf) < Int64.max_int ->
      neverDone (oracle w) ->
      failsTransiently (fun n => genkit_GenerateText (oracle w) n req)
        (calls w + primaryAttempts m)%nat
        (Z.to_nat (MaxRetries (retryConfig qf) + 1)) ->
      exists e err,
        snd (fst run) = Return ""%string (Some err)
        /\ Unwrap err = Some e
        /\ calls (snd run)
           = (calls w + primaryAttempts m
              + Z.to_nat (MaxRetries (retryConfig qf) + 1))%nat).
Proof.
  intros Hname Hreg Hgives w1 req run.
  destruct (manager_hands_over prompt m w qf Hname Hreg Hgives)
    as (Ho & Hc & Hat & Hfc & Hout & Hworld).
  fold w1 in Ho, Hc, Hat, Hfc, Hout, Hworld. fold run in Hout, Hworld.
  split; [auto|]. split; [auto|]. split.
  { rewrite Hworld, GenerateText_fallbackCalls. simpl.
    rewrite fallbackCalls_app, Hfc. unfold fallbackCalls at 2. simpl. lia. }
  split.
  - intros Hinit Hmax text Hans.
    rewrite Hout, Hworld.
    rewrite (GenerateText_answers prompt qf (emit (EvFallback (fallback m)) w1) text
               Hinit Hmax).
    + simpl. rewrite <- app_assoc. split; [reflexivity|]. split; [reflexivity | lia].
    + simpl. rewrite Ho, Hc. exact Hans.
  - intros Hinit Hrange Hnever Hfail.
    destruct (GenerateText_exhausts prompt qf (emit (EvFallback (fallback m)) w1)
                Hinit Hrange) as (e & err & w' & Hrun & Hun & _ & _ & Hc' & _).
    + simpl. rewrite Ho. assumption.
    + simpl. rewrite Ho, Hc. assumption.
    + exists e, err. rewrite Hout, Hworld, Hrun. simpl in *.
      split; [reflexivity|]. split; [assumption | lia].
Qed.

(** A primary whose four attempts time out and a fallback that answers:
    the four invocations of the primary, then the one of the fallback,
    whose text comes back. *)
Lemma fallback_is_attempted_once_witness :
  let o := stub 4 errTimeout ("ok"%string, None) None in
  let m : LegacyProviderManager GoogleAIProvider :=
    mkManager (<[ "googleai"%string := readyProvider ]>
               (<[ "backup"%string := readyProvider ]> ∅))
              "googleai" "backup" in
  let req := mkRequest "gemini-1.5-flash" "hello" None in
  let run := managerGenerateText "hello" m (newWorld o) in
  snd (fst run) = Return "ok"%string None
  /\ log (snd run)
     = log (afterPrimary "hello" m (newWorld o)) ++ [EvFallback "backup"; EvGenerate req]
  /\ calls (snd run) = 5%nat.
Proof.
  intros o m req run.
  assert (Hname : fallback m <> ""%string) by discriminate.
  assert (Hreg : providers m !! fallback m = Some readyProvider) by reflexivity.
  assert (Hgives : primaryGivesUp "hello" m (newWorld o)).
  { right. split; [reflexivity|].
    split; [vm_compute; split; [discriminate | reflexivity]|].
    split; [intros k; reflexivity|].
    apply stub_failsTransiently. }
  destruct (fallback_is_attempted_once "hello" m (newWorld o) readyProvider
              Hname Hreg Hgives) as (_ & _ & _ & Hanswer & _).
  apply (Hanswer eq_refl ltac:(vm_compute; discriminate) "ok"%string eq_refl).
Defined.

(** A primary that was never initialised, a fallback that is ready: the
    call goes to the fallback, once, and its answer comes back. *)
Example fallback_for_unavailable_primary :
  let o := stub 0 errTimeout ("ok"%string, None) None in
  let m : LegacyProviderManager GoogleAIProvider :=
    mkManager (<[ "googleai"%string := NewGoogleAIProvider plainHandler ]>
               (<[ "backup"%string := readyProvider ]> ∅))
              "googleai" "backup" in
  let run := managerGenerateText "hello" m (newWorld o) in
  snd (fst run) = Return "ok"%string None
  /\ log (snd run)
     = [EvFallback "backup"; EvGenerate (mkRequest "gemini-1.5-flash" "hello" None)].
Proof. split; reflexivity. Qed.

(** A fallback that fails as well: its failure is surfaced after its own
    four attempts; eight invocations in all, one call of the fallback. *)
Example fallback_fails_too :
  let o := stub 9 errTimeout ("ok"%string, None) None in
  let m : LegacyProviderManager GoogleAIProvider :=
    mkManager (<[ "googleai"%string := readyProvider ]>
               (<[ "backup"%string := readyProvider ]> ∅))
              "googleai" "backup" in
  let run := managerGenerateText "hello" m (newWorld o) in
  snd (fst run)
  = Return ""%string (Some (Errorf_failed_after "google AI request" 4 (Some errTimeout)))
  /\ attempts (log (snd run)) = 8%nat
  /\ fallbackCalls (log (snd run)) = 1%nat.
Proof. repeat split; reflexivity. Qed.

(** A primary whose four attempts time out, then the fallback: five
    invocations in all, one call handed to the fallback. *)
Example fallback_after_exhaustion :
  let o := stub 4 errTimeout ("ok"%string, None) None in
  let m : LegacyProviderManager GoogleAIProvider :=
    mkManager (<[ "googleai"%string := readyProvider ]>
               (<[ "backup"%string := readyProvider ]> ∅))
              "googleai" "backup" in
  let run := managerGenerateText "hello" m (newWorld o) in
  snd (fst run) = Return "ok"%string None
  /\ attempts (log (snd run)) = 5%nat
  /\ fallbackCalls (log (snd run)) = 1%nat.
Proof. repeat split; reflexivity. Qed.

(** A fatal error of the primary is the call's answer: no fallback. *)
Example no_fallback_on_fatal_error :
  let o := stub 0 errTimeout (""%string, Some errAuth) None in
  let m : LegacyProviderManager GoogleAIProvider :=
    mkManager (<[ "googleai"%string := readyProvider ]>
               (<[ "backup"%string := readyProvider ]> ∅))
              "googleai" "backup" in
  let run := managerGenerateText "hello" m (newWorld o) in
  fallbackCalls (log (snd run)) = 0%nat
  /\ snd (fst run)
     = Return ""%string
         (Some (Errorf_failed_after "google AI request" 4 (Some errAuth))).
Proof. repeat split; reflexivity. Qed.

(** ** Further facts about the embedding *)

(** Nothing a client can call changes the retry configuration: every
    provider keeps the one it was built with, whose backoffs fit. *)
Lemma perform_retryConfig c p w :
  retryConfig (fst (fst (perform c p w))) = retryConfig p.
Proof.
  destruct c; simpl; unfold bind.
  - destruct (Initialize config0 p w) as [[p' err] w'] eqn:Hinit.
    apply Initialize_spec in Hinit. simpl. apply Hinit.
  - pose proof (GenerateText_provider prompt p w) as Hp.
    destruct (GenerateText prompt p w) as [[p' out] w']. simpl in *. congruence.
  - pose proof (GenerateWithStructuredOutput_provider prompt outputType p w) as Hp.
    destruct (GenerateWithStructuredOutput prompt outputType p w) as [[p' out] w'].
    simpl in *. congruence.
  - pose proof (GenerateStream_provider prompt p w) as Hp.
    destruct (GenerateStream prompt p w) as [[p' out] w']. simpl in *. congruence.
  - pose proof (CallTool_provider toolName params p w) as Hp.
    destruct (CallTool toolName params p w) as [[p' out] w']. simpl in *. congruence.
Qed.

Lemma performAll_retryConfig cs : forall p succeeded w,
  retryConfig (fst (fst (performAll cs p succeeded w))) = retryConfig p.
Proof.
  induction cs as [|c cs IH]; intros p succeeded w; [reflexivity|].
  simpl. unfold bind.
  pose proof (perform_retryConfig c p w) as Hone.
  destruct (perform c p w) as [[p1 ok] w1]. simpl in Hone.
  rewrite IH. exact Hone.
Qed.

Lemma every_provider_fits eh cs w :
  backoffFits
    (retryConfig (fst (fst (performAll cs (NewGoogleAIProvider eh) false w)))).
Proof. rewrite performAll_retryConfig. apply defaultRetryConfig_fits. Qed.

(** The loops return whenever the attempt counter cannot wrap. *)
Lemma retryFrom_returns {A : Type} (zero : A) what rc fn answer req :
  invokes fn answer req ->
  MaxRetries rc < Int64.max_int ->
  forall fuel attempt lastErr w,
    0 <= attempt ->
    (0 < attempt -> lastErr <> None) ->
    (Z.to_nat (MaxRetries rc + 1 - attempt) < fuel)%nat ->
    exists v err,
      fst (retryFrom zero what rc fn fuel attempt lastErr w) = Return v err.
Proof.
  intros Hfn Hmax. induction fuel as [|fuel IH]; intros attempt lastErr w H0 Hlast Hfuel;
    [lia|].
  destruct (Z_le_gt_dec attempt (MaxRetries rc)) as [Hle|Hgt].
  - assert (Hround : forall w0,
              exists v err,
                fst (attemptOnce zero what rc fn answer req fuel attempt w0) = Return v err).
    { intros w0. unfold attemptOnce.
      destruct (answer (oracle w0) (calls w0)) as [result [e|]]; [|simpl; eauto].
      destruct (isRetryable (Some e)); [|simpl; unfold exhausted; eauto].
      assert (Hadd : Int64.add attempt 1 = attempt + 1).
      { apply wrap64_in_range.
        unfold Int64.in_range, Int64.min_int, Int64.max_int in *. lia. }
      rewrite Hadd. apply IH; [lia | discriminate | lia]. }
    destruct (Z_lt_le_dec 0 attempt) as [Hpos|Hnp].
    + destruct lastErr as [e0|]; [|exfalso; apply (Hlast Hpos); reflexivity].
      destruct (ctx_Done (oracle w) (selects w)) as [ce|] eqn:Hsel.
      * rewrite retryFrom_done with (ce := ce) by (auto; lia). simpl. eauto.
      * rewrite (retryFrom_timer zero what rc fn answer req Hfn) by (auto; lia).
        apply Hround.
    + rewrite (retryFrom_first zero what rc fn answer req Hfn) by lia. apply Hround.
  - rewrite retryFrom_exit by lia. simpl. unfold exhausted. eauto.
Qed.

Lemma withRetry_returns p fn answer req w :
  invokes fn answer req ->
  MaxRetries (retryConfig p) < Int64.max_int ->
  exists v err, fst (withRetry p fn w) = Return v err.
Proof.
  intros Hfn Hmax. unfold withRetry, retryLoop.
  apply (retryFrom_returns _ _ _ _ _ _ Hfn Hmax); [lia | intros H; lia | lia].
Qed.

Lemma withRetryStructured_returns p fn answer req w :
  invokes fn answer req ->
  MaxRetries (retryConfig p) < Int64.max_int ->
  exists v err, fst (withRetryStructured p fn w) = Return v err.
Proof.
  intros Hfn Hmax. unfold withRetryStructured, retryLoop.
  apply (retryFrom_returns _ _ _ _ _ _ Hfn Hmax); [lia | intros H; lia | lia].
Qed.

Example isRetryable_rate_limit :
  isRetryable (Some (errorString "429: Rate Limit reached")) = true.
Proof. reflexivity. Qed.

Example isRetryable_auth : isRetryable (Some errAuth) = false.
Proof. reflexivity. Qed.

Example isRetryable_schema : isRetryable (Some errSchema) = false.
Proof. reflexivity. Qed.

Example isRetryable_deadline : isRetryable (Some DeadlineExceeded) = false.
Proof. reflexivity. Qed.

Example default_backoffs :
  map (backoffDelay defaultRetryConfig) [1; 2; 3]
  = [1 * second; 2 * second; 4 * second].
Proof. reflexivity. Qed.

Example generate_text_log :
  log (snd (GenerateText "hello" readyProvider
              (newWorld (stub 2 errTimeout ("ok"%string, None) None))))
  = [ EvGenerate (mkRequest "gemini-1.5-flash" "hello" None);
      EvTimerFired 1 (1 * second);
      EvGenerate (mkRequest "gemini-1.5-flash" "hello" None);
      EvTimerFired 2 (2 * second);
      EvGenerate (mkRequest "gemini-1.5-flash" "hello" None) ].
Proof. reflexivity. Qed.

Example call_tool_empty_name :
  snd (fst (CallTool "" ∅ readyProvider
              (newWorld (stub 0 errTimeout ("ok"%string, None) None))))
  = Return (Some (mkToolCallResult AnyNil false
                    (Some (errorString "tool name cannot be empty")) 0 ∅))
           (Some (errorString "tool name cannot be empty")).
Proof. reflexivity. Qed.

(** * Further properties of the provider *)

(** ** What the retry loops return *)

(** Every [return] of the loop that carries an error carries the zero
    value with it, whatever [fn] does. *)
Lemma retryFrom_error_zero {A : Type} (zero : A) what rc fn fuel :
  forall attempt lastErr w v e,
    fst (retryFrom zero what rc fn fuel attempt lastErr w) = Return v (Some e) ->
    v = zero.
Proof.
  induction fuel as [|fuel IH]; intros attempt lastErr w v e Hout; [discriminate Hout|].
  simpl in Hout.
  assert (Hbody : forall w0,
            fst ((r <~ fn ;;
                  let (result, err) := r in
                  match err with
                  | None => ret (Return result None)
                  | Some _ =>
                      if negb (isRetryable err)
                      then ret (exhausted zero what rc err)
                      else retryFrom zero what rc fn fuel (Int64.add attempt 1) err
                  end) w0) = Return v (Some e) -> v = zero).
  { intros w0. unfold bind. destruct (fn w0) as [[result [e0|]] w1].
    - destruct (negb (isRetryable (Some e0))).
      + simpl. unfold exhausted. intros H. inversion H. reflexivity.
      + apply IH.
    - simpl. discriminate. }
  destruct (attempt <=? MaxRetries rc).
  - destruct (0 <? attempt).
    + destruct lastErr as [e0|]; [|discriminate Hout].
      unfold bind at 1 in Hout.
      destruct (selectDoneOrAfter attempt (backoffDelay rc attempt) w) as [[ce|] w0].
      * simpl in Hout. inversion Hout. reflexivity.
      * apply (Hbody w0). exact Hout.
    + apply (Hbody w). exact Hout.
  - simpl in Hout. unfold exhausted in Hout. inversion Hout. reflexivity.
Qed.

(** X2: whenever a generation method returns an error, the value beside it
    is the zero value: no text, no response; nothing the model sent with
    its error gets through. *)
Theorem error_comes_with_zero_value p w :
  (forall prompt,
     match snd (fst (GenerateText prompt p w)) with
     | Return v (Some _) => v = ""%string
     | _ => True
     end)
  /\ (forall prompt outputType,
       match snd (fst (GenerateWithStructuredOutput prompt outputType p w)) with
       | Return v (Some _) => v = None
       | _ => True
       end).
Proof.
  split.
  - intros prompt. unfold GenerateText.
    destruct (initialized p); simpl; [|reflexivity].
    unfold bind, withRetry, retryLoop.
    pose proof (retryFrom_error_zero ""%string "google AI request" (retryConfig p)
                  (genkitGenerateText (mkRequest (GetModel p) prompt None))
                  (S (Z.to_nat (MaxRetries (retryConfig p) + 1))) 0 None w) as H.
    destruct (retryFrom _ _ _ _ _ _ _ w) as [[v [e|] | msg | ] w']; simpl; auto.
    apply (H v e). reflexivity.
  - intros prompt outputType. unfold GenerateWithStructuredOutput.
    destruct (initialized p); simpl; [|reflexivity].
    destruct (isNil outputType && (0 <=? MaxRetries (retryConfig p))); [exact I|].
    unfold bind, withRetryStructured, retryLoop.
    pose proof (retryFrom_error_zero None "google AI structured request" (retryConfig p)
                  (genkitGenerate (mkRequest (GetModel p) prompt (Some outputType)))
                  (S (Z.to_nat (MaxRetries (retryConfig p) + 1))) 0 None w) as H.
    destruct (retryFrom _ _ _ _ _ _ _ w) as [[v [e|] | msg | ] w']; simpl; auto.
    apply (H v e). reflexivity.
Qed.

(** A model that sends half a text with its error: the text is dropped. *)
Example half_text_is_dropped :
  snd (fst (GenerateText "hello" readyProvider
              (newWorld (stub 0 errTimeout ("half a sent"%string, Some errAuth) None))))
  = Return ""%string (Some (Errorf_failed_after "google AI request" 4 (Some errAuth))).
Proof. reflexivity. Qed.

(** ** How many invocations a call can make *)

Lemma retryFrom_attempts_bound {A : Type} (zero : A) what rc fn answer req :
  invokes fn answer req ->
  MaxRetries rc < Int64.max_int ->
  forall fuel attempt lastErr w,
    0 <= attempt ->
    (attempts (log (snd (retryFrom zero what rc fn fuel attempt lastErr w)))
     <= attempts (log w) + Z.to_nat (MaxRetries rc + 1 - attempt))%nat.
Proof.
  intros Hfn Hmax. induction fuel as [|fuel IH]; intros attempt lastErr w H0;
    [simpl; lia|].
  destruct (Z_le_gt_dec attempt (MaxRetries rc)) as [Hle|Hgt].
  - assert (Hround : forall w0,
              attempts (log w0) = attempts (log w) ->
              (attempts (log (snd (attemptOnce zero what rc fn answer req fuel attempt w0)))
               <= attempts (log w) + Z.to_nat (MaxRetries rc + 1 - attempt))%nat).
    { intros w0 Hw0. unfold attemptOnce.
      destruct (answer (oracle w0) (calls w0)) as [result [e|]].
      - destruct (isRetryable (Some e)).
        + assert (Hadd : Int64.add attempt 1 = attempt + 1).
          { apply wrap64_in_range.
            unfold Int64.in_range, Int64.min_int, Int64.max_int in *. lia. }
          rewrite Hadd.
          pose proof (IH (attempt + 1) (Some e) (emit (EvGenerate req) (bumpCalls w0))
                        ltac:(lia)) as Hrec.
          rewrite attempts_after_call in Hrec. lia.
        + simpl snd. rewrite attempts_after_call. lia.
      - simpl snd. rewrite attempts_after_call. lia. }
    destruct (Z_lt_le_dec 0 attempt) as [Hpos|Hnp].
    + destruct lastErr as [e0|].
      * destruct (ctx_Done (oracle w) (selects w)) as [ce|] eqn:Hsel.
        -- rewrite retryFrom_done with (ce := ce) by (auto; lia).
           simpl. rewrite attempts_app. cbn. lia.
        -- rewrite (retryFrom_timer zero what rc fn answer req Hfn) by (auto; lia).
           apply Hround. simpl. rewrite attempts_app. cbn. lia.
      * simpl. destruct (Z.leb_spec attempt (MaxRetries rc)); [|lia].
        destruct (Z.ltb_spec 0 attempt); [|lia]. simpl. lia.
    + rewrite (retryFrom_first zero what rc fn answer req Hfn) by lia.
      apply Hround. reflexivity.
  - rewrite retryFrom_exit by lia. simpl. lia.
Qed.

Lemma withRetry_bound p fn answer req w :
  invokes fn answer req ->
  MaxRetries (retryConfig p) < Int64.max_int ->
  (attempts (log (snd (withRetry p fn w)))
   <= attempts (log w) + Z.to_nat (MaxRetries (retryConfig p) + 1))%nat.
Proof.
  intros Hfn Hmax. unfold withRetry, retryLoop.
  pose proof (retryFrom_attempts_bound ""%string "google AI request" (retryConfig p)
                fn answer req Hfn Hmax
                (S (Z.to_nat (MaxRetries (retryConfig p) + 1))) 0 None w ltac:(lia)) as H.
  rewrite Z.sub_0_r in H. exact H.
Qed.

Lemma withRetryStructured_bound p fn answer req w :
  invokes fn answer req ->
  MaxRetries (retryConfig p) < Int64.max_int ->
  (attempts (log (snd (withRetryStructured p fn w)))
   <= attempts (log w) + Z.to_nat (MaxRetries (retryConfig p) + 1))%nat.
Proof.
  intros Hfn Hmax. unfold withRetryStructured, retryLoop.
  pose proof (retryFrom_attempts_bound None "google AI structured request"
                (retryConfig p) fn answer req Hfn Hmax
                (S (Z.to_nat (MaxRetries (retryConfig p) + 1))) 0 None w ltac:(lia)) as H.
  rewrite Z.sub_0_r in H. exact H.
Qed.

(** X1: whatever the model and the context do, a call of [GenerateText],
    of [CallTool], or of [GenerateWithStructuredOutput] with an output
    type returns (it neither panics on [lastErr.Error()] nor loops on),
    and every call invokes the model at most [MaxRetries + 1] times. A
    structured call with a nil output type on an initialised provider is
    the exception: it panics, before any invocation. *)
Theorem calls_return_within_budget p w :
  MaxRetries (retryConfig p) < Int64.max_int ->
  (forall prompt,
     (exists v err, snd (fst (GenerateText prompt p w)) = Return v err)
     /\ (attempts (log (snd (GenerateText prompt p w)))
         <= attempts (log w) + Z.to_nat (MaxRetries (retryConfig p) + 1))%nat)
  /\ (forall prompt outputType,
     (outputType <> AnyNil ->
      exists v err,
        snd (fst (GenerateWithStructuredOutput prompt outputType p w)) = Return v err)
     /\ (outputType = AnyNil -> initialized p = true -> 0 <= MaxRetries (retryConfig p) ->
         exists msg,
           GenerateWithStructuredOutput prompt outputType p w = ((p, Panic msg), w))
     /\ (attempts (log (snd (GenerateWithStructuredOutput prompt outputType p w)))
         <= attempts (log w) + Z.to_nat (MaxRetries (retryConfig p) + 1))%nat)
  /\ (forall toolName params,
     (exists v err, snd (fst (CallTool toolName params p w)) = Return v err)
     /\ (attempts (log (snd (CallTool toolName params p w)))
         <= attempts (log w) + Z.to_nat (MaxRetries (retryConfig p) + 1))%nat).
Proof.
  intros Hmax. split; [|split].
  - intros prompt. unfold GenerateText.
    destruct (initialized p); simpl; [|split; [eauto | lia]].
    unfold bind.
    set (fn := genkitGenerateText (mkRequest (GetModel p) prompt None)).
    pose proof (withRetry_returns p fn _ _ w (genkitGenerateText_invokes _) Hmax) as Hret.
    pose proof (withRetry_bound p fn _ _ w (genkitGenerateText_invokes _) Hmax) as Hbound.
    destruct (withRetry p fn w) as [out w']. simpl in *. auto.
  - intros prompt outputType. unfold GenerateWithStructuredOutput.
    destruct (initialized p); simpl;
      [|split; [eauto | split; [discriminate | lia]]].
    destruct (isNil outputType) eqn:Hnil; simpl.
    + assert (HisNil : outputType = AnyNil) by (destruct outputType; try discriminate Hnil; reflexivity).
      destruct (Z.leb_spec 0 (MaxRetries (retryConfig p))) as [Hle|Hlt]; simpl.
      * split; [contradiction|]. split; [eauto | lia].
      * split; [contradiction|]. split; [lia|].
        unfold bind.
        set (fn := genkitGenerate (mkRequest (GetModel p) prompt (Some outputType))).
        pose proof (withRetryStructured_bound p fn _ _ w (genkitGenerate_invokes _) Hmax)
          as Hbound.
        destruct (withRetryStructured p fn w) as [out w']. simpl in *. auto.
    + unfold bind.
      set (fn := genkitGenerate (mkRequest (GetModel p) prompt (Some outputType))).
      pose proof (withRetryStructured_returns p fn _ _ w (genkitGenerate_invokes _) Hmax)
        as Hret.
      pose proof (withRetryStructured_bound p fn _ _ w (genkitGenerate_invokes _) Hmax)
        as Hbound.
      destruct (withRetryStructured p fn w) as [out w']. simpl in *.
      split; [auto|]. split; [|assumption].
      intros ->. discriminate Hnil.
  - intros toolName params. unfold CallTool.
    destruct (initialized p); simpl; [|split; [eauto | lia]].
    destruct (String.eqb toolName "").
    + unfold bind, timeSince, ret. simpl. split; [eauto | lia].
    + unfold bind, fmtParams, timeSince.
      set (fn := toolCall _).
      pose proof (withRetry_returns p fn _ _ w (toolCall_invokes _) Hmax) as Hret.
      pose proof (withRetry_bound p fn _ _ w (toolCall_invokes _) Hmax) as Hbound.
      destruct (withRetry p fn w) as [out w']. simpl in Hret, Hbound.
      destruct Hret as (v & err & ->).
      destruct err as [e|]; simpl; split; eauto.
Qed.

Lemma calls_return_within_budget_witness :
  let o := stub 9 errTimeout ("ok"%string, None) None in
  (exists v err,
     snd (fst (CallTool "search" ∅ readyProvider (newWorld o))) = Return v err)
  /\ (attempts (log (snd (CallTool "search" ∅ readyProvider (newWorld o))))
      <= attempts (log (newWorld o)) + Z.to_nat (3 + 1))%nat.
Proof.
  intros o.
  apply (proj2 (proj2 (calls_return_within_budget readyProvider (newWorld o)
                         ltac:(vm_compute; reflexivity)))
           "search"%string ∅).
Defined.

(** ** Waits and attempts *)

Lemma timers_app l1 l2 : timers (l1 ++ l2) = (timers l1 + timers l2)%nat.
Proof. unfold timers. rewrite List.filter_app, List.length_app. reflexivity. Qed.

(** From a retry on, every attempt has its wait: the loop adds as many
    invocations to the log as it adds waits run to their end. *)
Lemma retryFrom_waits {A : Type} (zero : A) what rc fn answer req :
  invokes fn answer req ->
  MaxRetries rc < Int64.max_int ->
  forall fuel attempt lastErr w,
    0 < attempt ->
    (attempts (log (snd (retryFrom zero what rc fn fuel attempt lastErr w)))
     + timers (log w)
     = attempts (log w)
       + timers (log (snd (retryFrom zero what rc fn fuel attempt lastErr w))))%nat.
Proof.
  intros Hfn Hmax. induction fuel as [|fuel IH]; intros attempt lastErr w Hpos;
    [simpl; lia|].
  destruct (Z_le_gt_dec attempt (MaxRetries rc)) as [Hle|Hgt].
  - destruct lastErr as [e0|].
    + destruct (ctx_Done (oracle w) (selects w)) as [ce|] eqn:Hsel.
      * rewrite retryFrom_done with (ce := ce) by (auto; lia).
        simpl. rewrite attempts_app, timers_app. cbn. lia.
      * rewrite (retryFrom_timer zero what rc fn answer req Hfn) by (auto; lia).
        set (w0 := emit (EvTimerFired attempt (backoffDelay rc attempt))
                     (mkWorld (oracle w) (calls w) (S (selects w)) (inits w) (log w))).
        assert (Ha0 : attempts (log w0) = attempts (log w))
          by (subst w0; simpl; rewrite attempts_app; cbn; lia).
        assert (Ht0 : timers (log w0) = S (timers (log w)))
          by (subst w0; simpl; rewrite timers_app; cbn; lia).
        set (w1 := emit (EvGenerate req) (bumpCalls w0)).
        assert (Ha1 : attempts (log w1) = S (attempts (log w)))
          by (subst w1; rewrite attempts_after_call; lia).
        assert (Ht1 : timers (log w1) = S (timers (log w)))
          by (subst w1 w0; simpl; rewrite !timers_app; cbn; lia).
        unfold attemptOnce. fold w1.
        destruct (answer (oracle w0) (calls w0)) as [result [e|]].
        -- destruct (isRetryable (Some e)).
           ++ assert (Hadd : Int64.add attempt 1 = attempt + 1).
              { apply wrap64_in_range.
                unfold Int64.in_range, Int64.min_int, Int64.max_int in *. lia. }
              rewrite Hadd.
              pose proof (IH (attempt + 1) (Some e) w1 ltac:(lia)) as Hrec. lia.
           ++ simpl snd. lia.
        -- simpl snd. lia.
    + simpl. destruct (Z.leb_spec attempt (MaxRetries rc)); [|lia].
      destruct (Z.ltb_spec 0 attempt); [|lia]. simpl. lia.
  - rewrite retryFrom_exit by lia. simpl. lia.
Qed.

Lemma retryLoop_waits {A : Type} (zero : A) what rc fn answer req w out w' evs :
  invokes fn answer req ->
  0 <= MaxRetries rc < Int64.max_int ->
  retryLoop zero what rc fn w = (out, w') ->
  log w' = log w ++ evs ->
  attempts evs = S (timers evs).
Proof.
  intros Hfn [H0 Hmax] Hrun Hlog. unfold retryLoop in Hrun.
  rewrite (retryFrom_first zero what rc fn answer req Hfn) in Hrun by lia.
  assert (Hsum : (attempts (log w') + timers (log w)
                  = S (attempts (log w)) + timers (log w'))%nat).
  { unfold attemptOnce in Hrun.
    set (w1 := emit (EvGenerate req) (bumpCalls w)) in *.
    assert (Ha1 : attempts (log w1) = S (attempts (log w)))
      by (subst w1; rewrite attempts_after_call; lia).
    assert (Ht1 : timers (log w1) = timers (log w))
      by (subst w1; simpl; rewrite timers_app; cbn; lia).
    destruct (answer (oracle w) (calls w)) as [result [e|]].
    - destruct (isRetryable (Some e)).
      + pose proof (retryFrom_waits zero what rc fn answer req Hfn Hmax
                      (Z.to_nat (MaxRetries rc + 1)) (Int64.add 0 1) (Some e) w1
                      ltac:(vm_compute; reflexivity)) as Hrec.
        rewrite Hrun in Hrec. simpl snd in Hrec. lia.
      + inversion Hrun; subst. lia.
    - inversion Hrun; subst. lia. }
  rewrite Hlog, attempts_app, timers_app in Hsum. lia.
Qed.

(** X3: between two attempts the loops wait exactly once: a call that makes
    [n] invocations has run [n - 1] backoffs to their end, and it makes at
    least one invocation. *)
Theorem one_wait_between_attempts p w :
  0 <= MaxRetries (retryConfig p) < Int64.max_int ->
  (forall fn answer req out w' evs,
     invokes fn answer req ->
     withRetry p fn w = (out, w') ->
     log w' = log w ++ evs ->
     attempts evs = S (timers evs))
  /\ (forall fn answer req out w' evs,
     invokes fn answer req ->
     withRetryStructured p fn w = (out, w') ->
     log w' = log w ++ evs ->
     attempts evs = S (timers evs)).
Proof.
  intros Hrange. split; intros fn answer req out w' evs Hfn Hrun Hlog.
  - apply (retryLoop_waits ""%string _ _ _ _ _ _ _ _ _ Hfn Hrange Hrun Hlog).
  - apply (retryLoop_waits None _ _ _ _ _ _ _ _ _ Hfn Hrange Hrun Hlog).
Qed.

Lemma one_wait_between_attempts_witness :
  let req := mkRequest "gemini-1.5-flash" "hello" None in
  let o := stub 2 errTimeout ("ok"%string, None) None in
  let run := withRetry readyProvider (genkitGenerateText req) (newWorld o) in
  attempts (log (snd run)) = S (timers (log (snd run)))
  /\ timers (log (snd run)) = 2%nat.
Proof.
  intros req o run. split; [|reflexivity].
  apply (proj1 (one_wait_between_attempts readyProvider (newWorld o)
                  ltac:(vm_compute; split; [discriminate | reflexivity]))
           (genkitGenerateText req) (fun o n => genkit_GenerateText o n req) req
           (fst run) (snd run) (log (snd run))).
  - apply genkitGenerateText_invokes.
  - apply surjective_pairing.
  - vm_compute. reflexivity.
Defined.

(** ** The shape of the backoff *)

(** X5: the delay never exceeds [MaxDelay], not even where the product wraps;
    and under a configuration with non-negative delays whose backoffs
    fit, the delays are non-negative and never shrink from one retry to
    the next. *)
Theorem backoff_grows_to_the_cap rc :
  (forall k, backoffDelay rc k <= MaxDelay rc)
  /\ (backoffFits rc -> 0 <= BaseDelay rc -> 0 <= MaxDelay rc ->
      forall j k, 1 <= j <= k -> k <= MaxRetries rc ->
        0 <= backoffDelay rc j <= backoffDelay rc k).
Proof.
  split.
  - intros k. unfold backoffDelay. apply Z.le_min_r.
  - intros Hfits Hbase Hcap j k Hjk Hk.
    rewrite (backoffDelay_exact rc j) by (try apply Hfits; lia).
    rewrite (backoffDelay_exact rc k) by (try apply Hfits; lia).
    unfold specDelay.
    assert (Hpow : 0 < 2 ^ (j - 1) <= 2 ^ (k - 1)).
    { split; [apply Z.pow_pos_nonneg; lia | apply Z.pow_le_mono_r; lia]. }
    assert (Hprod : 0 <= BaseDelay rc * 2 ^ (j - 1) <= BaseDelay rc * 2 ^ (k - 1)) by nia.
    split.
    + apply Z.min_glb; lia.
    + apply Z.min_le_compat_r. lia.
Qed.

Lemma backoff_grows_to_the_cap_witness :
  0 <= backoffDelay defaultRetryConfig 2 <= backoffDelay defaultRetryConfig 3
  /\ backoffDelay defaultRetryConfig 3 <= MaxDelay defaultRetryConfig.
Proof.
  split.
  - apply (proj2 (backoff_grows_to_the_cap defaultRetryConfig) defaultRetryConfig_fits);
      simpl; unfold second; lia.
  - apply (proj1 (backoff_grows_to_the_cap defaultRetryConfig)).
Defined.

(** ** Errors that wrap errors *)

Lemma ToLower_append s t : ToLower (s +:+ t) = (ToLower s +:+ ToLower t)%string.
Proof.
  induction s as [|c s IH]; [reflexivity|].
  change (String (lowerAscii c) (ToLower (s +:+ t))
          = String (lowerAscii c) (ToLower s +:+ ToLower t)).
  f_equal. exact IH.
Qed.

(** X8: the failure a loop returns for a transient error is transient itself:
    its text ends with the text of the error it wraps, so whoever
    classifies it with [isRetryable] retries it too. *)
Theorem wrapped_transient_is_transient what n e :
  isRetryable (Some e) = true ->
  isRetryable (Some (Errorf_failed_after what n (Some e))) = true.
Proof.
  intros Hretry. apply isRetryable_spec in Hretry.
  destruct Hretry as (pattern & before & after & Hin & Htext).
  apply isRetryable_spec.
  exists pattern,
    (ToLower (what +:+ " failed after " +:+ Itoa n +:+ " attempts: ") +:+ before)%string,
    after.
  split; [assumption|].
  unfold Errorf_failed_after, Error at 1.
  rewrite ToLower_append. fold (Error e). rewrite Htext, append_assoc. reflexivity.
Qed.

Lemma wrapped_transient_is_transient_witness :
  isRetryable (Some errTimeout) = true
  /\ isRetryable (Some (Errorf_failed_after "google AI request" 4 (Some errTimeout)))
     = true.
Proof.
  split; [reflexivity|].
  apply (wrapped_transient_is_transient "google AI request" 4 errTimeout).
  reflexivity.
Defined.

(** ** Initialisation *)

Lemma parseConfig_accepts cfg key :
  cfg !! "api_key"%string = Some (AnyString key) ->
  parseConfig cfg (mkConfig "" "")
  = (mkConfig key match cfg !! "default_model"%string with
                  | Some (AnyString m) => m
                  | _ => ""%string
                  end, None).
Proof.
  intros Hkey. unfold parseConfig. rewrite Hkey.
  destruct (cfg !! "default_model"%string) as [[| | | |]|]; reflexivity.
Qed.

Lemma defaulted_model cfg key :
  (if String.eqb match cfg !! "default_model"%string with
                 | Some (AnyString m) => m
                 | _ => ""%string
                 end ""
   then mkConfig key "gemini-1.5-flash"
   else mkConfig key match cfg !! "default_model"%string with
                     | Some (AnyString m) => m
                     | _ => ""%string
                     end)
  = mkConfig key (configuredModel cfg).
Proof.
  unfold configuredModel.
  destruct (cfg !! "default_model"%string) as [[| | | m |]|]; try reflexivity.
  destruct (String.eqb m ""); reflexivity.
Qed.

Lemma configuredModel_nonempty cfg : configuredModel cfg <> ""%string.
Proof.
  unfold configuredModel.
  destruct (cfg !! "default_model"%string) as [[| | | m |]|]; try discriminate.
  destruct (String.eqb_spec m ""); [discriminate | assumption].
Qed.

(** X9: with a non-empty string under ["api_key"] and both initialisations
    answering nil, [Initialize] returns nil and leaves a provider that is
    initialised and available, holds the key, the genkit instance and the
    configured model (the default one when none is configured), and keeps
    its retry configuration; it logs one line and invokes no model. *)
Theorem Initialize_succeeds cfg key p w g :
  cfg !! "api_key"%string = Some (AnyString key) ->
  key <> ""%string ->
  genkit_Init (oracle w) (inits w) = (g, None) ->
  googleAI_Init (oracle w) (inits w) key = None ->
  exists p' w',
    Initialize cfg p w = ((p', None), w')
    /\ p' = mkProvider true (retryConfig p) (mkConfig key (configuredModel cfg))
                       (errorHandler p) g
    /\ IsAvailable p' = true
    /\ GetModel p' = configuredModel cfg
    /\ log w' = log w ++ [EvLogInfo "Google AI provider initialized successfully"]
    /\ calls w' = calls w.
Proof.
  intros Hkey Hne Hinit Hplugin. unfold Initialize.
  rewrite (parseConfig_accepts cfg key Hkey). cbn [APIKey DefaultModel].
  destruct (String.eqb_spec key ""); [contradiction|].
  rewrite defaulted_model.
  unfold bind, genkitInit, googleAIPluginInit, loggerInfo, ret.
  rewrite Hinit. cbn [APIKey oracle inits]. rewrite Hplugin.
  eexists _, _. split; [reflexivity|]. split; [reflexivity|].
  pose proof (configuredModel_nonempty cfg) as Hmodel.
  split; [|split; [|split; reflexivity]].
  - unfold IsAvailable. simpl. destruct (String.eqb_spec key ""); [contradiction|reflexivity].
  - unfold GetModel. simpl.
    destruct (String.eqb_spec (configuredModel cfg) ""); [contradiction|reflexivity].
Qed.

Lemma Initialize_succeeds_witness :
  let o := stub 0 errTimeout ("ok"%string, None) None in
  let cfg : gmap string any :=
    <[ "api_key"%string := AnyString "secret" ]>
      (<[ "default_model"%string := AnyString "gemini-2.0-flash" ]> ∅) in
  let p := NewGoogleAIProvider plainHandler in
  exists p' w',
    Initialize cfg p (newWorld o) = ((p', None), w')
    /\ p' = mkProvider true (retryConfig p) (mkConfig "secret" (configuredModel cfg))
                       (errorHandler p) (Some 0%nat)
    /\ IsAvailable p' = true
    /\ GetModel p' = configuredModel cfg
    /\ log w' = log (newWorld o)
                ++ [EvLogInfo "Google AI provider initialized successfully"]
    /\ calls w' = calls (newWorld o).
Proof.
  intros o cfg p.
  apply (Initialize_succeeds cfg "secret" p (newWorld o) (Some 0%nat)).
  - reflexivity.
  - discriminate.
  - reflexivity.
  - reflexivity.
Defined.

(** X10: when the key is accepted and [genkit.Init] or the plugin's [Init]
    fails, [Initialize] returns the handler's wrap of that failure, whose
    context holds the length of the key and not the key; the provider
    keeps its [initialized] flag and its genkit instance, but its stored
    key and model are the new ones. *)
Theorem Initialize_fails_after_storing cfg key p w g e :
  cfg !! "api_key"%string = Some (AnyString key) ->
  key <> ""%string ->
  genkit_Init (oracle w) (inits w) = (g, Some e)
  \/ (genkit_Init (oracle w) (inits w) = (g, None)
      /\ googleAI_Init (oracle w) (inits w) key = Some e) ->
  exists msg w',
    Initialize cfg p w
    = ((mkProvider (initialized p) (retryConfig p)
                   (mkConfig key (configuredModel cfg)) (errorHandler p) (genkit p),
        Some (eh_Wrap (errorHandler p) e msg
                {[ "api_key_length"%string := AnyInt (strlen key) ]})), w')
    /\ log w' = log w /\ calls w' = calls w.
Proof.
  intros Hkey Hne Hfail. unfold Initialize.
  rewrite (parseConfig_accepts cfg key Hkey). cbn [APIKey DefaultModel].
  destruct (String.eqb_spec key ""); [contradiction|].
  rewrite defaulted_model.
  unfold bind, genkitInit, googleAIPluginInit, loggerInfo, ret.
  destruct Hfail as [Hinit | [Hinit Hplugin]]; rewrite Hinit.
  - eexists _, _. split; [reflexivity|]. split; reflexivity.
  - cbn [APIKey oracle inits]. rewrite Hplugin.
    eexists _, _. split; [reflexivity|]. split; reflexivity.
Qed.

(** A provider in use is given a new key and model by an [Initialize]
    that fails: it answers as available, with the new model. *)
Lemma Initialize_fails_after_storing_witness :
  let o := mkOracle (fun _ _ => (""%string, None)) (fun _ _ => (None, None))
             (fun _ => None) (fun _ => (None, Some errTimeout)) (fun _ _ => None)
             (fun _ => 0) (fun _ => ""%string) in
  let cfg : gmap string any :=
    <[ "api_key"%string := AnyString "other" ]>
      (<[ "default_model"%string := AnyString "gemini-1.5-pro" ]> ∅) in
  (exists msg w',
     Initialize cfg readyProvider (newWorld o)
     = ((mkProvider (initialized readyProvider) (retryConfig readyProvider)
                    (mkConfig "other" (configuredModel cfg))
                    (errorHandler readyProvider) (genkit readyProvider),
         Some (eh_Wrap (errorHandler readyProvider) errTimeout msg
                 {[ "api_key_length"%string := AnyInt (strlen "other") ]})), w')
     /\ log w' = log (newWorld o) /\ calls w' = calls (newWorld o))
  /\ IsAvailable (fst (fst (Initialize cfg readyProvider (newWorld o)))) = true
  /\ GetModel (fst (fst (Initialize cfg readyProvider (newWorld o))))
     = "gemini-1.5-pro"%string.
Proof.
  intros o cfg. split; [|split; reflexivity].
  apply (Initialize_fails_after_storing cfg "other" readyProvider (newWorld o) None
           errTimeout).
  - reflexivity.
  - discriminate.
  - left. reflexivity.
Defined.

(** X11: a value under ["api_key"] that is not a string counts for nothing:
    [Initialize] asks for the key and changes neither the provider nor
    the world. *)
Theorem Initialize_ignores_typed_key cfg v p w :
  cfg !! "api_key"%string = Some v ->
  (forall s, v <> AnyString s) ->
  Initialize cfg p w
  = ((p, Some (eh_New (errorHandler p) "Google AI API key is required"
                 {[ "config"%string := AnyMap cfg ]})), w).
Proof.
  intros Hkey Hv. unfold Initialize, parseConfig. rewrite Hkey.
  destruct v as [| b | n | s | m]; try (exfalso; apply (Hv s); reflexivity);
    destruct (cfg !! "default_model"%string) as [[| | | |]|]; reflexivity.
Qed.

Lemma Initialize_ignores_typed_key_witness :
  let o := stub 0 errTimeout ("ok"%string, None) None in
  let cfg : gmap string any := {[ "api_key"%string := AnyInt 12345 ]} in
  let p := NewGoogleAIProvider plainHandler in
  Initialize cfg p (newWorld o)
  = ((p, Some (errorString "Google AI API key is required")), newWorld o).
Proof.
  intros o cfg p.
  apply (Initialize_ignores_typed_key cfg (AnyInt 12345) p (newWorld o)).
  - reflexivity.
  - discriminate.
Defined.

(** ** What a provider's life keeps *)

Lemma Initialize_key_required cfg p w :
  (forall key, cfg !! "api_key"%string = Some (AnyString key) -> key = ""%string) ->
  Initialize cfg p w
  = ((p, Some (eh_New (errorHandler p) "Google AI API key is required"
                 {[ "config"%string := AnyMap cfg ]})), w).
Proof.
  intros Hkey. unfold Initialize, parseConfig.
  destruct (cfg !! "api_key"%string) as [[| b | n | key | m]|];
    try (destruct (cfg !! "default_model"%string) as [[| | | |]|]; reflexivity).
  rewrite (Hkey key eq_refl).
  destruct (cfg !! "default_model"%string) as [[| | | |]|]; reflexivity.
Qed.

Lemma Initialize_provider_cases cfg p w :
  fst (fst (Initialize cfg p w)) = p
  \/ exists key i g,
       key <> ""%string
       /\ fst (fst (Initialize cfg p w))
          = mkProvider i (retryConfig p) (mkConfig key (configuredModel cfg))
                       (errorHandler p) g.
Proof.
  destruct (cfg !! "api_key"%string) as [v|] eqn:Hkey.
  - destruct v as [| b | n | key | m];
      try (left; rewrite Initialize_key_required; [reflexivity|];
           intros key' H'; rewrite Hkey in H'; discriminate H').
    destruct (String.eqb_spec key "") as [->|Hne].
    + left. rewrite Initialize_key_required; [reflexivity|].
      intros key' H'. rewrite Hkey in H'. inversion H'. reflexivity.
    + right. exists key. unfold Initialize.
      rewrite (parseConfig_accepts cfg key Hkey). cbn [APIKey DefaultModel].
      destruct (String.eqb_spec key ""); [contradiction|].
      rewrite defaulted_model.
      unfold bind, genkitInit, googleAIPluginInit, loggerInfo, ret.
      destruct (genkit_Init (oracle w) (inits w)) as [g [e|]].
      * eexists _, _. split; [assumption | reflexivity].
      * cbn [APIKey oracle inits].
        destruct (googleAI_Init (oracle w) (inits w) key) as [e|];
          eexists _, _; (split; [assumption | reflexivity]).
  - left. rewrite Initialize_key_required; [reflexivity|].
    intros key' H'. rewrite Hkey in H'. discriminate H'.
Qed.

Lemma performAll_invariant (I : GoogleAIProvider -> Prop) :
  (forall cfg p w, I p -> I (fst (fst (Initialize cfg p w)))) ->
  forall cs p succeeded w, I p -> I (fst (fst (performAll cs p succeeded w))).
Proof.
  intros Hinit. induction cs as [|c cs IH]; intros p succeeded w Hp; [exact Hp|].
  simpl. unfold bind.
  assert (Hone : I (fst (fst (perform c p w)))).
  { destruct c; simpl; unfold bind.
    - pose proof (Hinit config0 p w Hp) as H.
      destruct (Initialize config0 p w) as [[p' err] w']. exact H.
    - pose proof (GenerateText_provider prompt p w) as H.
      destruct (GenerateText prompt p w) as [[p' out] w']. simpl in *. subst. exact Hp.
    - pose proof (GenerateWithStructuredOutput_provider prompt outputType p w) as H.
      destruct (GenerateWithStructuredOutput prompt outputType p w) as [[p' out] w'].
      simpl in *. subst. exact Hp.
    - pose proof (GenerateStream_provider prompt p w) as H.
      destruct (GenerateStream prompt p w) as [[p' out] w']. simpl in *. subst. exact Hp.
    - pose proof (CallTool_provider toolName params p w) as H.
      destruct (CallTool toolName params p w) as [[p' out] w']. simpl in *. subst. exact Hp. }
  destruct (perform c p w) as [[p1 ok] w1]. simpl in Hone. apply IH. exact Hone.
Qed.

(** X12: through any history of calls a provider keeps the error handler and
    the retry configuration it was built with, and its stored
    configuration is all or nothing: either no key and no model, on a
    provider that is not initialised, or a key and a model, the model
    [GetModel] answers. [GetModel] never answers the empty name. *)
Theorem provider_configuration_is_all_or_nothing eh cs w :
  let p := fst (fst (performAll cs (NewGoogleAIProvider eh) false w)) in
  errorHandler p = eh
  /\ retryConfig p = defaultRetryConfig
  /\ GetModel p <> ""%string
  /\ ((APIKey (config p) = ""%string /\ DefaultModel (config p) = ""%string
       /\ initialized p = false /\ GetModel p = "gemini-1.5-flash"%string)
      \/ (APIKey (config p) <> ""%string /\ DefaultModel (config p) <> ""%string
          /\ GetModel p = DefaultModel (config p))).
Proof.
  set (I := fun p : GoogleAIProvider =>
              errorHandler p = eh
              /\ retryConfig p = defaultRetryConfig
              /\ GetModel p <> ""%string
              /\ ((APIKey (config p) = ""%string /\ DefaultModel (config p) = ""%string
                   /\ initialized p = false /\ GetModel p = "gemini-1.5-flash"%string)
                  \/ (APIKey (config p) <> ""%string
                      /\ DefaultModel (config p) <> ""%string
                      /\ GetModel p = DefaultModel (config p)))).
  change (I (fst (fst (performAll cs (NewGoogleAIProvider eh) false w)))).
  apply performAll_invariant.
  - intros cfg p w0 Hp.
    destruct (Initialize_provider_cases cfg p w0) as [-> | (key & i & g & Hkey & ->)];
      [exact Hp|].
    destruct Hp as (Heh & Hrc & _).
    pose proof (configuredModel_nonempty cfg) as Hmodel.
    assert (Hget : GetModel (mkProvider i (retryConfig p)
                               (mkConfig key (configuredModel cfg)) (errorHandler p) g)
                   = configuredModel cfg).
    { unfold GetModel. simpl.
      destruct (String.eqb_spec (configuredModel cfg) ""); [contradiction|reflexivity]. }
    unfold I. rewrite Hget. simpl. repeat split; try assumption.
    right. repeat split; assumption.
  - unfold I. simpl. repeat split; try discriminate. left. repeat split.
Qed.

(** Only [Initialize] changes a provider: the generation methods, the
    stream and the tool call hand back the provider they were called on,
    whatever they return. *)
Theorem only_Initialize_changes_the_provider p w :
  (forall prompt, fst (fst (GenerateText prompt p w)) = p)
  /\ (forall prompt outputType,
        fst (fst (GenerateWithStructuredOutput prompt outputType p w)) = p)
  /\ (forall prompt, fst (fst (GenerateStream prompt p w)) = p)
  /\ (forall toolName params, fst (fst (CallTool toolName params p w)) = p).
Proof.
  split; [|split; [|split]]; intros.
  - apply GenerateText_provider.
  - apply GenerateWithStructuredOutput_provider.
  - apply GenerateStream_provider.
  - apply CallTool_provider.
Qed.

(** [Initialize] never invokes the model and never waits: whatever it is
    given and however it ends, the invocations and the selects of the
    world are those it found. *)
Theorem Initialize_invokes_no_model cfg p w :
  let w' := snd (Initialize cfg p w) in
  calls w' = calls w /\ selects w' = selects w
  /\ attempts (log w') = attempts (log w) /\ timers (log w') = timers (log w).
Proof.
  unfold Initialize.
  destruct (parseConfig cfg (mkConfig "" "")) as [gc [e|]]; [simpl; auto|].
  destruct (String.eqb (APIKey gc) ""); [simpl; auto|].
  unfold bind, genkitInit, googleAIPluginInit, loggerInfo, ret.
  destruct (genkit_Init (oracle w) (inits w)) as [g [e|]]; [simpl; auto|].
  cbn [oracle inits].
  destruct (googleAI_Init (oracle w) (inits w) _) as [e|]; [simpl; auto|].
  simpl. rewrite attempts_app, timers_app. cbn. repeat split; lia.
Qed.

(** [GenerateStream] is a placeholder: it touches neither the provider
    nor the world, returns an error exactly when the provider is not
    initialised, and hands back a closed channel in that case and an open
    one, of room for ten chunks, otherwise. *)
Theorem GenerateStream_is_a_placeholder prompt p w :
  exists ch err,
    GenerateStream prompt p w = ((p, (ch, err)), w)
    /\ (err = None <-> initialized p = true)
    /\ chan_closed ch = negb (initialized p)
    /\ chan_cap ch = (if initialized p then 10 else 1).
Proof.
  unfold GenerateStream. destruct (initialized p); simpl.
  - eexists _, _. split; [reflexivity|]. split; [tauto|]. split; reflexivity.
  - eexists _, _. split; [reflexivity|]. split; [|split; reflexivity].
    split; discriminate.
Qed.

(** ** Tool calls *)

(** X13: an empty tool name is refused before anything else happens: the
    error says so, the result beside it is a failure that carries the same
    error and no metadata, and the model is not invoked. *)
Theorem CallTool_refuses_empty_name params p w :
  initialized p = true ->
  CallTool "" params p w
  = ((p, Return (Some (mkToolCallResult AnyNil false
                         (Some (errorString "tool name cannot be empty"))
                         (time_Since (oracle w) (calls w)) ∅))
                (Some (errorString "tool name cannot be empty"))), w).
Proof. intros Hinit. unfold CallTool. rewrite Hinit. reflexivity. Qed.

Lemma CallTool_refuses_empty_name_witness :
  let o := stub 0 errTimeout ("ok"%string, None) None in
  CallTool "" (<[ "q"%string := AnyString "x" ]> ∅) readyProvider (newWorld o)
  = ((readyProvider,
      Return (Some (mkToolCallResult AnyNil false
                      (Some (errorString "tool name cannot be empty")) 0 ∅))
             (Some (errorString "tool name cannot be empty"))), newWorld o).
Proof.
  intros o.
  apply (CallTool_refuses_empty_name (<[ "q"%string := AnyString "x" ]> ∅)
           readyProvider (newWorld o)).
  reflexivity.
Defined.

(** X14: what [CallTool] returns hangs together: no result only when the
    provider is not initialised; otherwise a result whose [Error] is the
    error returned and whose [Success] says that there is none; a
    successful result holds the text, its length and the tool's name, a
    failed one holds nil. *)
Theorem CallTool_result_matches_error toolName params p w :
  match snd (fst (CallTool toolName params p w)) with
  | Return None err => initialized p = false /\ err = Some errNotInitialized
  | Return (Some r) err =>
      initialized p = true
      /\ tcr_Error r = err
      /\ (tcr_Success r = true <-> err = None)
      /\ (err = None ->
          exists text,
            tcr_Result r = AnyString text
            /\ tcr_Metadata r !! "response_len"%string = Some (AnyInt (strlen text))
            /\ tcr_Metadata r !! "tool_name"%string = Some (AnyString toolName))
      /\ (err <> None -> tcr_Result r = AnyNil)
  | _ => True
  end.
Proof.
  unfold CallTool. destruct (initialized p); simpl; [|auto].
  destruct (String.eqb toolName "").
  - simpl. repeat split; try discriminate; auto.
  - unfold bind, fmtParams, timeSince.
    destruct (withRetry p _ w) as [[response [e|] | msg | ] w1]; simpl; auto.
    + repeat split; try discriminate; auto.
    + repeat split; auto; try (intros H; congruence).
      intros _. exists response. repeat split.
Qed.

(** ** What the attempts ask and what decides the answer *)

Lemma retryLoop_requests {A : Type} (zero : A) what rc fn answer req w evs r :
  invokes fn answer req ->
  log (snd (retryLoop zero what rc fn w)) = log w ++ evs ->
  In (EvGenerate r) evs -> r = req.
Proof.
  intros Hfn Hlog Hin. unfold retryLoop in Hlog.
  destruct (retryFrom zero what rc fn (S (Z.to_nat (MaxRetries rc + 1))) 0 None w)
    as [out w'] eqn:Hrun.
  apply (retryFrom_log zero what rc fn answer req Hfn) in Hrun.
  destruct Hrun as [_ (evs' & Hlog' & _ & Hall & _)]. simpl in Hlog.
  rewrite Hlog in Hlog'. apply app_inv_head in Hlog'. subst evs'.
  rewrite List.Forall_forall in Hall. apply (Hall _ Hin).
Qed.

Lemma log_unchanged_nil (l evs : list event) : l = l ++ evs -> evs = [].
Proof.
  intros H. rewrite <- (app_nil_r l) in H at 1. apply app_inv_head in H. auto.
Qed.

(** X7: every attempt of a call sends the same request: [GenerateText] the
    provider's model and the caller's prompt, without output type;
    [CallTool] the provider's model and the one prompt it builds from the
    tool's name and the rendering of the parameters. *)
Theorem every_attempt_sends_the_same_request p w :
  (forall prompt evs r,
     log (snd (GenerateText prompt p w)) = log w ++ evs ->
     In (EvGenerate r) evs ->
     r = mkRequest (GetModel p) prompt None)
  /\ (forall toolName params evs r,
     log (snd (CallTool toolName params p w)) = log w ++ evs ->
     In (EvGenerate r) evs ->
     r = mkRequest (GetModel p)
           (toolPromptOf toolName (fmt_params (oracle w) params)) None).
Proof.
  split.
  - intros prompt evs r. unfold GenerateText.
    destruct (initialized p); simpl.
    + unfold bind, withRetry. intros Hlog Hin.
      apply (retryLoop_requests ""%string "google AI request" (retryConfig p)
               _ _ _ w evs r (genkitGenerateText_invokes _)); [|assumption].
      destruct (retryLoop _ _ _ _ w) as [out w']. exact Hlog.
    + intros Hlog Hin. apply log_unchanged_nil in Hlog. subst evs. destruct Hin.
  - intros toolName params evs r. unfold CallTool.
    destruct (initialized p); simpl.
    + destruct (String.eqb toolName "").
      * simpl. intros Hlog Hin. apply log_unchanged_nil in Hlog. subst evs. destruct Hin.
      * unfold bind, fmtParams, timeSince, withRetry. intros Hlog Hin.
        apply (retryLoop_requests ""%string "google AI request" (retryConfig p)
                 _ _ _ w evs r (toolCall_invokes _)); [|assumption].
        destruct (retryLoop _ _ _ _ w) as [[response [e|] | msg | ] w']; exact Hlog.
    + intros Hlog Hin. apply log_unchanged_nil in Hlog. subst evs. destruct Hin.
Qed.

Lemma every_attempt_sends_the_same_request_witness :
  let o := stub 1 errTimeout ("done"%string, None) None in
  let run := CallTool "search" ∅ readyProvider (newWorld o) in
  let req := mkRequest "gemini-1.5-flash"
               "Execute tool 'search' with parameters: map[]. Return the result in a structured format."
               None in
  log (snd run) = log (newWorld o) ++ [EvGenerate req; EvTimerFired 1 second; EvGenerate req]
  /\ req = mkRequest (GetModel readyProvider)
             (toolPromptOf "search" (fmt_params (oracle (newWorld o)) ∅)) None.
Proof.
  intros o run req.
  assert (Hlog : log (snd run)
                 = log (newWorld o)
                   ++ [EvGenerate req; EvTimerFired 1 second; EvGenerate req])
    by reflexivity.
  split; [exact Hlog|].
  apply (proj2 (every_attempt_sends_the_same_request readyProvider (newWorld o))
           "search"%string ∅ _ req Hlog).
  left. reflexivity.
Defined.

(** The run of a loop from any round on: a success is the answer of the
    last invocation made; a failure is the context's error of a select,
    which is then the last event, or wraps the error of the last
    invocation made (the error the loop came with, when it made none). *)
Lemma retryFrom_last {A : Type} (zero : A) what rc fn answer req :
  invokes fn answer req ->
  forall fuel attempt lastErr w out w',
    retryFrom zero what rc fn fuel attempt lastErr w = (out, w') ->
    match out with
    | Return v None =>
        exists n, calls w' = S n /\ (calls w <= n)%nat
                  /\ answer (oracle w) n = (v, None)
    | Return v (Some err) =>
        (exists before k d, log w' = before ++ [EvCtxDone k d err])
        \/ (exists e,
              err = Errorf_failed_after what (Int64.add (MaxRetries rc) 1) e
              /\ ((calls w' = calls w /\ e = lastErr /\ MaxRetries rc < attempt)
                  \/ exists n r e',
                       calls w' = S n /\ (calls w <= n)%nat
                       /\ answer (oracle w) n = (r, Some e') /\ e = Some e'))
    | _ => True
    end.
Proof.
  intros Hfn. induction fuel as [|fuel IH]; intros attempt lastErr w out w' Hrun.
  - inversion Hrun. exact I.
  - assert (Hround : forall w0,
              oracle w0 = oracle w -> calls w0 = calls w ->
              attemptOnce zero what rc fn answer req fuel attempt w0 = (out, w') ->
              match out with
              | Return v None =>
                  exists n, calls w' = S n /\ (calls w <= n)%nat
                            /\ answer (oracle w) n = (v, None)
              | Return v (Some err) =>
                  (exists before k d, log w' = before ++ [EvCtxDone k d err])
                  \/ (exists e,
                        err = Errorf_failed_after what (Int64.add (MaxRetries rc) 1) e
                        /\ ((calls w' = calls w /\ e = lastErr /\ MaxRetries rc < attempt)
                            \/ exists n r e',
                                 calls w' = S n /\ (calls w <= n)%nat
                                 /\ answer (oracle w) n = (r, Some e') /\ e = Some e'))
              | _ => True
              end).
    { intros w0 Ho Hc Hone. unfold attemptOnce in Hone. rewrite Ho, Hc in Hone.
      destruct (answer (oracle w) (calls w)) as [result [e|]] eqn:Hans.
      - destruct (isRetryable (Some e)).
        + apply IH in Hone. simpl in Hone. rewrite Ho, Hc in Hone.
          destruct out as [v [err|] | msg | ]; auto.
          * destruct Hone as [Hctx | (e1 & Herr & Hlast)]; [left; exact Hctx|].
            right. exists e1. split; [exact Herr|]. right.
            destruct Hlast as [(Hsame & He1 & _) | (n & r & e' & Hn & Hle & Ha & He1)].
            -- exists (calls w), result, e. repeat split; auto.
            -- exists n, r, e'. repeat split; auto. lia.
          * destruct Hone as (n & Hn & Hle & Ha). exists n. repeat split; auto. lia.
        + inversion Hone; subst out w'. unfold exhausted. right.
          exists (Some e). split; [reflexivity|]. right.
          exists (calls w), result, e. simpl. rewrite Hc. repeat split; auto.
      - inversion Hone; subst out w'. exists (calls w). simpl. rewrite Hc.
        repeat split; auto. }
    destruct (Z_le_gt_dec attempt (MaxRetries rc)) as [Hle|Hgt].
    + destruct (Z_lt_le_dec 0 attempt) as [Hpos|Hnp].
      * destruct lastErr as [e0|].
        -- destruct (ctx_Done (oracle w) (selects w)) as [ce|] eqn:Hsel.
           ++ rewrite retryFrom_done with (ce := ce) in Hrun by (auto; lia).
              inversion Hrun; subst out w'. left.
              exists (log w), attempt, (backoffDelay rc attempt). reflexivity.
           ++ rewrite (retryFrom_timer zero what rc fn answer req Hfn) in Hrun
                by (auto; lia).
              eapply Hround; [| | exact Hrun]; reflexivity.
        -- simpl in Hrun.
           destruct (Z.leb_spec attempt (MaxRetries rc)); [|lia].
           destruct (Z.ltb_spec 0 attempt); [|lia].
           inversion Hrun. exact I.
      * rewrite (retryFrom_first zero what rc fn answer req Hfn) in Hrun by lia.
        eapply Hround; [| | exact Hrun]; reflexivity.
    + rewrite retryFrom_exit in Hrun by lia.
      inversion Hrun; subst out w'. unfold exhausted. right.
      exists lastErr. split; [reflexivity|]. left. repeat split; auto. lia.
Qed.

(** X6: on an initialised provider whose configuration allows an attempt,
    what [GenerateText] returns is decided by the last invocation it
    made: a success is that invocation's text; a failure is either the
    context's error of a backoff select, which is then the last event of
    the log, or the wrap of that invocation's error. *)
Theorem last_invocation_decides p prompt w p' v err w' :
  initialized p = true ->
  0 <= MaxRetries (retryConfig p) ->
  GenerateText prompt p w = ((p', Return v err), w') ->
  match err with
  | None =>
      exists n, calls w' = S n /\ (calls w <= n)%nat
                /\ genkit_GenerateText (oracle w) n (mkRequest (GetModel p) prompt None)
                   = (v, None)
  | Some e =>
      (exists before k d, log w' = before ++ [EvCtxDone k d e])
      \/ exists n r e',
           calls w' = S n /\ (calls w <= n)%nat
           /\ genkit_GenerateText (oracle w) n (mkRequest (GetModel p) prompt None)
              = (r, Some e')
           /\ e = Errorf_failed_after "google AI request"
                    (Int64.add (MaxRetries (retryConfig p)) 1) (Some e')
  end.
Proof.
  intros Hinit Hmax Hrun. unfold GenerateText in Hrun. rewrite Hinit in Hrun.
  simpl in Hrun. unfold bind, withRetry, retryLoop in Hrun.
  destruct (retryFrom _ _ _ _ _ _ _ w) as [out w0] eqn:Hloop.
  inversion Hrun; subst p' out w0.
  apply (retryFrom_last ""%string _ _ _ _ _ (genkitGenerateText_invokes _)) in Hloop.
  destruct err as [e|]; [|exact Hloop].
  destruct Hloop as [Hctx | (e1 & He & [(_ & _ & Habs) | (n & r & e' & Hn & Hle & Ha & He1)])].
  - left. exact Hctx.
  - lia.
  - right. exists n, r, e'. subst e1. repeat split; assumption.
Qed.

Lemma last_invocation_decides_witness :
  let o := stub 1 errTimeout ("fine"%string, None) None in
  let run := GenerateText "hello" readyProvider (newWorld o) in
  fst run = (readyProvider, Return "fine"%string None)
  /\ exists n, calls (snd run) = S n /\ (calls (newWorld o) <= n)%nat
               /\ genkit_GenerateText (oracle (newWorld o)) n
                    (mkRequest (GetModel readyProvider) "hello" None)
                  = ("fine"%string, None).
Proof.
  intros o run. split; [reflexivity|].
  apply (last_invocation_decides readyProvider "hello" (newWorld o)
           readyProvider "fine"%string None (snd run)).
  - reflexivity.
  - simpl. lia.
  - reflexivity.
Defined.

(** ** Token limits *)

(** X15: [GetMaxTokens] answers one of three limits, from 32768 to 2097152; it
    answers the lowest exactly for the models its [switch] does not name,
    and a provider without a configured model gets the limit of the
    default model. *)
Theorem GetMaxTokens_limits p :
  32768 <= GetMaxTokens p <= 2097152
  /\ (GetMaxTokens p = 32768
      <-> ~ In (GetModel p)
               [ "gemini-1.5-pro"; "gemini-1.5-pro-latest"; "gemini-1.5-flash";
                 "gemini-1.5-flash-latest"; "gemini-2.0-flash" ]%string)
  /\ (DefaultModel (config p) = ""%string -> GetMaxTokens p = 1048576).
Proof.
  split; [|split].
  - unfold GetMaxTokens.
    destruct (String.eqb _ _ || String.eqb _ _); [lia|].
    destruct (String.eqb _ _ || String.eqb _ _); [lia|].
    destruct (String.eqb _ _); lia.
  - unfold GetMaxTokens. generalize (GetModel p). intros model. simpl.
    destruct (String.eqb_spec model "gemini-1.5-pro") as [->|H1];
      [simpl; split; [discriminate | intros H; exfalso; apply H; auto]|].
    destruct (String.eqb_spec model "gemini-1.5-pro-latest") as [->|H2];
      [simpl; split; [discriminate | intros H; exfalso; apply H; auto]|].
    destruct (String.eqb_spec model "gemini-1.5-flash") as [->|H3];
      [simpl; split; [discriminate | intros H; exfalso; apply H; auto]|].
    destruct (String.eqb_spec model "gemini-1.5-flash-latest") as [->|H4];
      [simpl; split; [discriminate | intros H; exfalso; apply H; auto 6]|].
    destruct (String.eqb_spec model "gemini-2.0-flash") as [->|H5];
      [simpl; split; [discriminate | intros H; exfalso; apply H; auto 6]|].
    simpl. split; [|reflexivity].
    intros _ [H|[H|[H|[H|[H|[]]]]]]; congruence.
  - intros Hmodel. unfold GetMaxTokens, GetModel. rewrite Hmodel. reflexivity.
Qed.

Lemma GetMaxTokens_limits_witness :
  DefaultModel (config (NewGoogleAIProvider plainHandler)) = ""%string
  /\ GetMaxTokens (NewGoogleAIProvider plainHandler) = 1048576.
Proof.
  split; [reflexivity|].
  apply (proj2 (proj2 (GetMaxTokens_limits (NewGoogleAIProvider plainHandler)))).
  reflexivity.
Defined.

(** ** Time spent waiting *)

Lemma waited_bound rc req evs :
  Forall (roundEvent rc req) evs ->
  waited evs <= Z.of_nat (timers evs) * MaxDelay rc.
Proof.
  induction 1 as [|ev evs Hev _ IH]; [unfold timers; simpl; lia|].
  change (ev :: evs) with ([ev] ++ evs). rewrite timers_app.
  destruct ev; simpl in Hev; try contradiction;
    cbn [waited app]; unfold timers at 1; cbn [List.filter isTimer length]; try lia.
  destruct Hev as [_ ->].
  pose proof (Z.le_min_r (Int64.mul (BaseDelay rc)
                            (Int64.shl 1 (Int64.sub attempt 1))) (MaxDelay rc)) as Hcap.
  fold (backoffDelay rc attempt) in Hcap. lia.
Qed.

Lemma retryLoop_waited {A : Type} (zero : A) what rc fn answer req w out w' evs :
  invokes fn answer req ->
  0 <= MaxRetries rc < Int64.max_int ->
  0 <= MaxDelay rc ->
  retryLoop zero what rc fn w = (out, w') ->
  log w' = log w ++ evs ->
  Z.of_nat (timers evs) <= MaxRetries rc
  /\ waited evs <= MaxRetries rc * MaxDelay rc.
Proof.
  intros Hfn Hrange Hcap Hrun Hlog.
  pose proof (retryLoop_waits zero what rc fn answer req w out w' evs Hfn Hrange Hrun Hlog)
    as Hwaits.
  pose proof (retryFrom_attempts_bound zero what rc fn answer req Hfn (proj2 Hrange)
                (S (Z.to_nat (MaxRetries rc + 1))) 0 None w ltac:(lia)) as Hbound.
  unfold retryLoop in Hrun. rewrite Hrun in Hbound. simpl snd in Hbound.
  rewrite Hlog, attempts_app in Hbound.
  pose proof Hrun as Hall.
  apply (retryFrom_log zero what rc fn answer req Hfn) in Hall.
  destruct Hall as [_ (evs' & Hlog' & _ & Hall & _)].
  rewrite Hlog in Hlog'. apply app_inv_head in Hlog'. subst evs'.
  pose proof (waited_bound rc req evs Hall) as Hw.
  assert (Ht : Z.of_nat (timers evs) <= MaxRetries rc) by lia.
  split; [exact Ht | nia].
Qed.

(** X4: a call never waits longer than [MaxRetries] times [MaxDelay] in all:
    it runs at most [MaxRetries] backoffs to their end, none longer than
    [MaxDelay]. *)
Theorem total_wait_is_bounded p w :
  0 <= MaxRetries (retryConfig p) < Int64.max_int ->
  0 <= MaxDelay (retryConfig p) ->
  (forall fn answer req out w' evs,
     invokes fn answer req ->
     withRetry p fn w = (out, w') ->
     log w' = log w ++ evs ->
     Z.of_nat (timers evs) <= MaxRetries (retryConfig p)
     /\ waited evs <= MaxRetries (retryConfig p) * MaxDelay (retryConfig p))
  /\ (forall fn answer req out w' evs,
     invokes fn answer req ->
     withRetryStructured p fn w = (out, w') ->
     log w' = log w ++ evs ->
     Z.of_nat (timers evs) <= MaxRetries (retryConfig p)
     /\ waited evs <= MaxRetries (retryConfig p) * MaxDelay (retryConfig p)).
Proof.
  intros Hrange Hcap. split; intros fn answer req out w' evs Hfn Hrun Hlog.
  - apply (retryLoop_waited ""%string _ _ _ _ _ _ _ _ _ Hfn Hrange Hcap Hrun Hlog).
  - apply (retryLoop_waited None _ _ _ _ _ _ _ _ _ Hfn Hrange Hcap Hrun Hlog).
Qed.

Lemma total_wait_is_bounded_witness :
  let req := mkRequest "gemini-1.5-flash" "hello" None in
  let o := stub 9 errTimeout ("ok"%string, None) None in
  let run := withRetry readyProvider (genkitGenerateText req) (newWorld o) in
  waited (log (snd run)) = 7 * second
  /\ Z.of_nat (timers (log (snd run))) <= MaxRetries (retryConfig readyProvider)
  /\ waited (log (snd run))
     <= MaxRetries (retryConfig readyProvider) * MaxDelay (retryConfig readyProvider).
Proof.
  intros req o run. split; [reflexivity|].
  apply (proj1 (total_wait_is_bounded readyProvider (newWorld o)
                  ltac:(vm_compute; split; [discriminate | reflexivity])
                  ltac:(vm_compute; discriminate))
           (genkitGenerateText req) (fun o n => genkit_GenerateText o n req) req
           (fst run) (snd run) (log (snd run))).
  - apply genkitGenerateText_invokes.
  - apply surjective_pairing.
  - vm_compute. reflexivity.
Defined.
